(** * smartformat-korean: Hangul phoneme codec and particle allomorphy

    A shallow embedding of [smartformat_korean/hangul.py] and
    [smartformatkorean.py].  smartformatkorean.py calls the builtin [unichr]
    and indexes its tables with the [/] of two ints, which only an
    interpreter with Python 2's numbers runs, although the module also
    branches on [six.PY2].  Its functions are modelled under that reading:
    [/] on ints is floor division, as the [//] of hangul.py is.  What
    [split_phonemes] does where [/] is true division is modelled beside it,
    as [split_phonemes_true_division].

    Unicode strings are lists of code points; a phoneme is a Python value that
    is either [None] or a string; exceptions are values of an error monad. *)

From Stdlib Require Import ZArith List Bool Lia.
From stdpp Require Import gmap list fin_maps.
Import ListNotations.

Local Open Scope Z_scope.

(** ** The Python fragment the sources use *)

Module Py.

(** A unicode string: its code points, in order. *)
Definition ustr := list Z.

Inductive exn := ValueError | IndexError | TypeError | KeyError.

Inductive result (A : Type) :=
| OK (a : A)
| Raise (e : exn).
Arguments OK {A} a.
Arguments Raise {A} e.

Definition bind {A B} (c : result A) (k : A -> result B) : result B :=
  match c with
  | OK a => k a
  | Raise e => Raise e
  end.

(** The values a phoneme variable holds: [None] or a unicode string. *)
Inductive pyval :=
| PNone
| PStr (s : ustr).

#[global] Instance pyval_eq_dec : EqDecision pyval.
Proof. solve_decision. Defined.

Definition ustr_eqb (a b : ustr) : bool :=
  if decide (a = b) then true else false.

(** Python's [==] on these values. *)
Definition pyval_eqb (a b : pyval) : bool :=
  match a, b with
  | PNone, PNone => true
  | PStr s, PStr t => ustr_eqb s t
  | _, _ => false
  end.

(** [x is None]. *)
Definition is_none (v : pyval) : bool :=
  match v with
  | PNone => true
  | PStr _ => false
  end.

(** [list(u'...')]: the one-character strings of a string. *)
Definition chr (c : Z) : pyval := PStr [c].
Definition letters (s : ustr) : list pyval := map chr s.

(** [a <= b] on unicode strings: lexicographic on code points. *)
Fixpoint ustr_le (a b : ustr) : bool :=
  match a, b with
  | [], _ => true
  | _ :: _, [] => false
  | x :: a', y :: b' =>
      if x <? y then true else if x =? y then ustr_le a' b' else false
  end.

(** [l[i]] for an integer [i]: a negative index counts from the end, and an
    index outside the list raises IndexError. *)
Definition getitem {A} (l : list A) (i : Z) : result A :=
  let n := Z.of_nat (length l) in
  let j := if i <? 0 then i + n else i in
  if (0 <=? j) && (j <? n) then
    match nth_error l (Z.to_nat j) with
    | Some x => OK x
    | None => Raise IndexError
    end
  else Raise IndexError.

(** [s[i]] on a string is the one-character string at [i]. *)
Definition str_getitem (s : ustr) (i : Z) : result ustr :=
  bind (getitem s i) (fun c => OK [c]).

(** [l.index(x)]: the first position holding a value equal to [x];
    ValueError when there is none. *)
Fixpoint index_from (x : pyval) (l : list pyval) (i : Z) : result Z :=
  match l with
  | [] => Raise ValueError
  | y :: l' => if pyval_eqb y x then OK i else index_from x l' (i + 1)
  end.

Definition list_index (l : list pyval) (x : pyval) : result Z :=
  index_from x l 0.

(** [unichr(n)]: the one-character string of code point [n]. *)
Definition unichr (n : Z) : result ustr :=
  if (0 <=? n) && (n <=? 0x10FFFF) then OK [n] else Raise ValueError.

(** The normalisation at the head of both [join_phonemes], which take
    their arguments as a star-args tuple:
    [if len(args) == 1: args = args[0]].  The only argument is then the
    phoneme sequence.  A tuple gives its items.  A string gives its letters
    when it has three of them; with two letters the tuple [(coda,)] cannot
    be added to it, and with any other number the unpacking into three
    names fails: TypeError in both cases.  [None] has no length:
    TypeError. *)
Inductive call_args :=
| Positional (l : list pyval)
| Packed (t : list pyval).

Definition unpack_args (a : call_args) : result (list pyval) :=
  match a with
  | Packed t => OK t
  | Positional [PStr s] =>
      if (length s =? 3)%nat then OK (letters s) else Raise TypeError
  | Positional [PNone] => Raise TypeError
  | Positional l => OK l
  end.

(** Numbers where [/] is true division: an int, or a float.  The value of
    a float is left out, since no operation of the sources reads it: a list
    refuses a float index by its type. *)
Inductive pynum :=
| PInt (n : Z)
| PFloat.

(** [a / b] on two ints under true division is a float, whatever the
    operands; the divisors of the sources are the non-zero table sizes. *)
Definition true_div (a b : Z) : pynum := PFloat.

(** [x % b] for an int [b]: an int for an int, a float for a float. *)
Definition num_mod (x : pynum) (b : Z) : pynum :=
  match x with
  | PInt n => PInt (n mod b)
  | PFloat => PFloat
  end.

(** [l[x]]: list indices must be integers. *)
Definition getitem_num {A} (l : list A) (x : pynum) : result A :=
  match x with
  | PInt n => getitem l n
  | PFloat => Raise TypeError
  end.

End Py.

Import Py.

Notation "x <- c ;; k" := (Py.bind c (fun x => k))
  (at level 100, c at next level, right associativity).

(** ** smartformat_korean/hangul.py *)

Module Hangul.

Definition ONSETS : list pyval :=
  letters [0x3131; 0x3132; 0x3134; 0x3137; 0x3138; 0x3139; 0x3141; 0x3142;
           0x3143; 0x3145; 0x3146; 0x3147; 0x3148; 0x3149; 0x314A; 0x314B;
           0x314C; 0x314D; 0x314E].
Definition NUCLEUSES : list pyval :=
  letters [0x314F; 0x3150; 0x3151; 0x3152; 0x3153; 0x3154; 0x3155; 0x3156;
           0x3157; 0x3158; 0x3159; 0x315A; 0x315B; 0x315C; 0x315D; 0x315E;
           0x315F; 0x3160; 0x3161; 0x3162; 0x3163].
(** [CODAS = [u'']] extended with the coda letters. *)
Definition CODAS : list pyval :=
  PStr [] ::
  letters [0x3131; 0x3132; 0x3133; 0x3134; 0x3135; 0x3136; 0x3137; 0x3139;
           0x313A; 0x313B; 0x313C; 0x313D; 0x313E; 0x313F; 0x3140; 0x3141;
           0x3142; 0x3144; 0x3145; 0x3146; 0x3147; 0x3148; 0x314A; 0x314B;
           0x314C; 0x314D; 0x314E].

Definition NUM_ONSETS : Z := Z.of_nat (length ONSETS).
Definition NUM_NUCLEUSES : Z := Z.of_nat (length NUCLEUSES).
Definition NUM_CODAS : Z := Z.of_nat (length CODAS).

(** [ord(u'가')] *)
Definition FIRST_HANGUL_OFFSET : Z := 0xAC00.

(** [u'가' <= letter <= u'힣'] *)
Definition is_hangul (letter : ustr) : bool :=
  ustr_le [0xAC00] letter && ustr_le letter [0xD7A3].

Definition join_phonemes (a : call_args) : result ustr :=
  args <- unpack_args a ;;
  let args := if (length args =? 2)%nat
              then args ++ [nth 0 CODAS PNone] else args in
  match args with
  | [onset; nucleus; coda] =>
      o <- list_index ONSETS onset ;;
      n <- list_index NUCLEUSES nucleus ;;
      c <- list_index CODAS coda ;;
      unichr (FIRST_HANGUL_OFFSET + ((o * NUM_NUCLEUSES + n) * NUM_CODAS + c))
  | _ => Raise TypeError
  end.

Definition split_phonemes (letter : ustr) (onset nucleus coda : bool)
  : result (pyval * pyval * pyval) :=
  match letter with
  | [c] =>
      if negb (is_hangul letter) then Raise ValueError else
      let offset := c - FIRST_HANGUL_OFFSET in
      p0 <- (if onset
             then getitem ONSETS (offset / (NUM_NUCLEUSES * NUM_CODAS))
             else OK PNone) ;;
      p1 <- (if nucleus
             then getitem NUCLEUSES ((offset / NUM_CODAS) mod NUM_NUCLEUSES)
             else OK PNone) ;;
      p2 <- (if coda
             then getitem CODAS (offset mod NUM_CODAS)
             else OK PNone) ;;
      OK (p0, p1, p2)
  | _ => Raise ValueError
  end.

End Hangul.

(** ** smartformatkorean.py *)

Module SFK.

Definition INITIALS : list pyval :=
  letters [0x3131; 0x3132; 0x3134; 0x3137; 0x3138; 0x3139; 0x3141; 0x3142;
           0x3143; 0x3145; 0x3146; 0x3147; 0x3148; 0x3149; 0x314A; 0x314B;
           0x314C; 0x314D; 0x314E].
Definition VOWELS : list pyval :=
  letters [0x314F; 0x3150; 0x3151; 0x3152; 0x3153; 0x3154; 0x3155; 0x3156;
           0x3157; 0x3158; 0x3159; 0x315A; 0x315B; 0x315C; 0x315D; 0x315E;
           0x315F; 0x3160; 0x3161; 0x3162; 0x3163].
(** [FINALS = [None]] extended with the final letters. *)
Definition FINALS : list pyval :=
  PNone ::
  letters [0x3131; 0x3132; 0x3133; 0x3134; 0x3135; 0x3136; 0x3137; 0x3139;
           0x313A; 0x313B; 0x313C; 0x313D; 0x313E; 0x313F; 0x3140; 0x3141;
           0x3142; 0x3144; 0x3145; 0x3146; 0x3147; 0x3148; 0x314A; 0x314B;
           0x314C; 0x314D; 0x314E].

Definition NUM_INITIALS : Z := Z.of_nat (length INITIALS).
Definition NUM_VOWELS : Z := Z.of_nat (length VOWELS).
Definition NUM_FINALS : Z := Z.of_nat (length FINALS).

Definition FIRST_HANGUL_OFFSET : Z := 0xAC00.

(** Code points of the literals of the module. *)
Definition LPAREN : Z := 0x28.
Definition RPAREN : Z := 0x29.
Definition LF : Z := 0x0A.
Definition HYPHEN : Z := 0x2D.
(** 이, the copula stem. *)
Definition SYL_I : Z := 0xC774.
(** ㅇ, ㅣ, ㄹ *)
Definition IEUNG : pyval := chr 0x3147.
Definition VOWEL_I : pyval := chr 0x3163.
Definition RIEUL : pyval := chr 0x3139.

(** *** Regular expressions

    Both patterns of the module are only ever used through [sub(u'', _)].
    A matcher reads the text that is left at a position, with a flag telling
    whether the position is the start of the string, and answers with the
    length of the match there.  Neither pattern matches the empty string. *)

(** [$] without MULTILINE: the end of the string, or just before a line feed
    that is the last character. *)
Definition at_dollar (s : ustr) : bool :=
  match s with
  | [] => true
  | [c] => c =? LF
  | _ => false
  end.

(** The tail [.*?\)$] of ENDING_BRACKET_PATTERN: the lazy star first tries
    to stop, and otherwise lets [.] take one more character, which may be
    anything but a line feed. *)
Fixpoint match_lazy_close (s : ustr) : option nat :=
  match s with
  | [] => None
  | c :: s' =>
      if (c =? RPAREN) && at_dollar s' then Some 1%nat
      else if c =? LF then None
      else option_map S (match_lazy_close s')
  end.

(** [ENDING_BRACKET_PATTERN = re.compile(r'\(.*?\)$')] *)
Definition ENDING_BRACKET_PATTERN (at_start : bool) (s : ustr) : option nat :=
  match s with
  | c :: s' => if c =? LPAREN then option_map S (match_lazy_close s') else None
  | [] => None
  end.

(** The pattern of [normalize_verb], [^이|\(이\)]: 이 at the start of the
    string, or the three characters of a bracketed 이 anywhere. *)
Definition NORMALIZE_PATTERN (at_start : bool) (s : ustr) : option nat :=
  match s with
  | c :: s' =>
      if at_start && (c =? SYL_I) then Some 1%nat
      else match s' with
           | c1 :: c2 :: _ =>
               if (c =? LPAREN) && (c1 =? SYL_I) && (c2 =? RPAREN)
               then Some 3%nat else None
           | _ => None
           end
  | [] => None
  end.

(** [pattern.sub(u'', s)]: scan from the left; where the pattern matches,
    drop the match and go on behind it, otherwise keep the character.
    [skip] counts the characters of the current match still to drop. *)
Fixpoint sub_scan (pattern : bool -> ustr -> option nat)
  (at_start : bool) (skip : nat) (s : ustr) : ustr :=
  match s with
  | [] => []
  | c :: s' =>
      match skip with
      | S k => sub_scan pattern false k s'
      | O =>
          match pattern at_start s with
          | Some (S k) => sub_scan pattern false k s'
          | _ => c :: sub_scan pattern false O s'
          end
      end
  end.

Definition re_sub (pattern : bool -> ustr -> option nat) (s : ustr) : ustr :=
  sub_scan pattern true O s.

(** *** Phonemes *)

Definition is_hangul (letter : ustr) : bool :=
  ustr_le [0xAC00] letter && ustr_le letter [0xD7A3].

(** The module is Python 2: [/] on two ints is floor division. *)
Definition split_phonemes (letter : ustr) (initial vowel final : bool)
  : result (pyval * pyval * pyval) :=
  match letter with
  | [c] =>
      if negb (is_hangul letter) then Raise ValueError else
      let offset := c - FIRST_HANGUL_OFFSET in
      p0 <- (if initial
             then getitem INITIALS (offset / (NUM_VOWELS * NUM_FINALS))
             else OK PNone) ;;
      p1 <- (if vowel
             then getitem VOWELS ((offset / NUM_FINALS) mod NUM_VOWELS)
             else OK PNone) ;;
      p2 <- (if final
             then getitem FINALS (offset mod NUM_FINALS)
             else OK PNone) ;;
      OK (p0, p1, p2)
  | _ => Raise ValueError
  end.

(** The same function on an interpreter whose [/] is true division: the
    two quotients are floats, the remainder by NUM_FINALS is still an
    int. *)
Definition split_phonemes_true_division
  (letter : ustr) (initial vowel final : bool)
  : result (pyval * pyval * pyval) :=
  match letter with
  | [c] =>
      if negb (is_hangul letter) then Raise ValueError else
      let offset := c - FIRST_HANGUL_OFFSET in
      p0 <- (if initial
             then getitem_num INITIALS
                    (true_div offset (NUM_VOWELS * NUM_FINALS))
             else OK PNone) ;;
      p1 <- (if vowel
             then getitem_num VOWELS
                    (num_mod (true_div offset NUM_FINALS) NUM_VOWELS)
             else OK PNone) ;;
      p2 <- (if final
             then getitem_num FINALS (PInt (offset mod NUM_FINALS))
             else OK PNone) ;;
      OK (p0, p1, p2)
  | _ => Raise ValueError
  end.

Definition join_phonemes (a : call_args) : result ustr :=
  args <- unpack_args a ;;
  let args := if (length args =? 2)%nat then args ++ [PNone] else args in
  match args with
  | [initial; vowel; final] =>
      i <- list_index INITIALS initial ;;
      v <- list_index VOWELS vowel ;;
      f <- list_index FINALS final ;;
      unichr (FIRST_HANGUL_OFFSET + ((i * NUM_VOWELS + v) * NUM_FINALS + f))
  | _ => Raise TypeError
  end.

Definition pick_final (letter : ustr) : result pyval :=
  t <- split_phonemes letter false false true ;;
  OK (snd t).

(** *** Particles

    The classes: [Particle], and its subclass [Euro], which overrides
    [allomorph] and holds its three forms as class attributes.  The metaclass
    turns the class statement of a special particle into its only instance. *)

Inductive class := ClsParticle | ClsEuro.

Record Particle := {
  cls : class;
  form1 : ustr;
  form2 : ustr;
  default : ustr
}.

(** [u'%s(%s)' % (form1, form2)] *)
Definition combine_forms (form1 form2 : ustr) : ustr :=
  form1 ++ [LPAREN] ++ form2 ++ [RPAREN].

(** [Particle.__init__] *)
Definition Particle_init (form1 form2 : ustr) (default : option ustr)
  : Particle :=
  {| cls := ClsParticle;
     form1 := form1;
     form2 := form2;
     default := match default with
                | None => combine_forms form1 form2
                | Some d => d
                end |}.

(** 으로, 로, (으)로 *)
Definition Euro : Particle :=
  {| cls := ClsEuro;
     form1 := [0xC73C; 0xB85C];
     form2 := [0xB85C];
     default := [LPAREN; 0xC73C; RPAREN; 0xB85C] |}.

(** [allomorph], by the class of [self]. *)
Definition allomorph (self : Particle) (final : pyval) : ustr :=
  match cls self with
  | ClsParticle => if is_none final then form2 self else form1 self
  | ClsEuro =>
      if is_none final || pyval_eqb final RIEUL
      then form2 self else form1 self
  end.

(** [Particle.__call__]: only ValueError is caught. *)
Definition Particle_call (self : Particle) (word : ustr) : result ustr :=
  let word := re_sub ENDING_BRACKET_PATTERN word in
  match (c <- str_getitem word (-1) ;; pick_final c) with
  | OK final => OK (allomorph self final)
  | Raise ValueError => OK (default self)
  | Raise e => Raise e
  end.

(** [Particle.__iter__] *)
Definition Particle_iter (self : Particle) : list ustr :=
  [default self; form1 self; form2 self].

(** *** The copula *)

(** [j_injections = bidict({ㅓ: ㅕ, ㅔ: ㅖ})], as its list of items; [inv] is
    the inverse view of the bidict. *)
Definition j_injections : list (pyval * pyval) :=
  [(chr 0x3153, chr 0x3155); (chr 0x3154, chr 0x3156)].

Definition inv (d : list (pyval * pyval)) : list (pyval * pyval) :=
  map (fun kv => (snd kv, fst kv)) d.

(** [k in d] and [d[k]] *)
Definition dict_contains (d : list (pyval * pyval)) (k : pyval) : bool :=
  existsb (fun kv => pyval_eqb (fst kv) k) d.

Fixpoint dict_getitem (d : list (pyval * pyval)) (k : pyval) : result pyval :=
  match d with
  | [] => Raise KeyError
  | (k', v) :: d' => if pyval_eqb k' k then OK v else dict_getitem d' k
  end.

Definition normalize_verb (verb : ustr) : ustr :=
  re_sub NORMALIZE_PATTERN verb.

(** [Ida.__call__].  [final] is [None] after an open syllable, the empty
    string after a word that does not end in a Hangul letter, and the final
    consonant otherwise. *)
Definition Ida (word verb : ustr) : result ustr :=
  let word := re_sub ENDING_BRACKET_PATTERN word in
  let verb := normalize_verb verb in
  final <- match (c <- str_getitem word (-1) ;; pick_final c) with
           | Raise ValueError => OK (PStr [])
           | r => r
           end ;;
  v0 <- str_getitem verb 0 ;;
  next <- split_phonemes v0 true true true ;;
  let '(next_initial, next_vowel, next_final) := next in
  let select (verb : ustr) : result ustr :=
    if is_none final then OK verb
    else if pyval_eqb final (PStr []) then OK ([LPAREN; SYL_I; RPAREN] ++ verb)
    else OK ([SYL_I] ++ verb) in
  if pyval_eqb next_initial IEUNG then
    if pyval_eqb next_vowel VOWEL_I then OK verb
    else
      let mapping :=
        if is_none final && dict_contains j_injections next_vowel
        then Some j_injections
        else if negb (is_none final)
                && dict_contains (inv j_injections) next_vowel
        then Some (inv j_injections)
        else None in
      verb <- match mapping with
              | Some m =>
                  next_vowel <- dict_getitem m next_vowel ;;
                  letter <- join_phonemes
                              (Positional [IEUNG; next_vowel; next_final]) ;;
                  OK (letter ++ skipn 1 verb)
              | None => OK verb
              end ;;
      select verb
  else select verb.

(** *** The registry *)

Definition PARTICLES : list Particle :=
  [ Particle_init [0xC740] [0xB294] None;
    Particle_init [0xC774] [0xAC00] None;
    Particle_init [0xC744] [0xB97C] None;
    Particle_init [0xACFC] [0xC640] None;
    Particle_init [0xC544] [0xC57C] None;
    Particle_init [0xC774; 0xC5EC] [0xC5EC]
      (Some [LPAREN; 0xC774; RPAREN; 0xC5EC]);
    Particle_init [0xC774; 0xC2DC; 0xC5EC] [0xC2DC; 0xC5EC]
      (Some [LPAREN; 0xC774; RPAREN; 0xC2DC; 0xC5EC]);
    Euro ].

(** The inner loop of the module: [for form in p], with the duplicate
    check. *)
Fixpoint index_forms (p : Particle) (forms : list ustr)
  (index : gmap ustr Particle) : result (gmap ustr Particle) :=
  match forms with
  | [] => OK index
  | form :: forms' =>
      match index !! form with
      | Some _ => Raise KeyError
      | None => index_forms p forms' (<[form := p]> index)
      end
  end.

(** The outer loop: [for p in PARTICLES]. *)
Fixpoint index_particles (ps : list Particle) (index : gmap ustr Particle)
  : result (gmap ustr Particle) :=
  match ps with
  | [] => OK index
  | p :: ps' =>
      index' <- index_forms p (Particle_iter p) index ;;
      index_particles ps' index'
  end.

(** The dictionary the module holds once it has been imported. *)
Definition _particle_index : gmap ustr Particle :=
  match index_particles PARTICLES ∅ with
  | OK index => index
  | Raise _ => ∅
  end.

(** *** The extension *)

(** [s.partition(sep)] for a one-character separator. *)
Fixpoint partition (s : ustr) (sep : Z) : ustr * ustr * ustr :=
  match s with
  | [] => ([], [], [])
  | c :: s' =>
      if c =? sep then ([], [sep], s')
      else let '(h, m, t) := partition s' sep in (c :: h, m, t)
  end.

Definition startswith (s : ustr) (c : Z) : bool :=
  match s with
  | c' :: _ => c' =? c
  | [] => false
  end.

Section Extension.

(** The host's [formatter.format(format, value)]. *)
Variable formatter_format : ustr -> ustr -> ustr.

(** [ko(formatter, value, name, option, format)]; a bare [return] gives
    [None]. *)
Definition ko (value name option format : ustr)
  : result (Datatypes.option ustr) :=
  let implicit := match name with [] => true | _ => false end in
  let option' :=
    if implicit then
      if startswith format HYPHEN then snd (partition format HYPHEN)
      else format
    else option in
  let format' :=
    if implicit then
      if startswith format HYPHEN then [] else [0x7B; 0x7D]
    else format in
  if implicit
     && match option' with
        | [] => true
        | c :: _ => negb (is_hangul [c])
        end
  then OK None
  else
    let particle : ustr -> result ustr :=
      match _particle_index !! option' with
      | Some p => Particle_call p
      | None => fun word => Ida word option'
      end in
    let formatted := formatter_format format' value in
    suffix <- particle value ;;
    OK (Some (formatted ++ suffix)).

End Extension.

Section HostExtension.

(** The host's [formatter.format(format, value)], which may raise. *)
Variable formatter_format : ustr -> ustr -> result ustr.

(** [ko] with such a host.  The last line evaluates
    [formatter.format(format, value)] before [particle(value)], so an
    exception of the formatter leaves [ko] before the particle is called. *)
Definition ko_host (value name option format : ustr)
  : result (Datatypes.option ustr) :=
  let implicit := match name with [] => true | _ => false end in
  let option' :=
    if implicit then
      if startswith format HYPHEN then snd (partition format HYPHEN)
      else format
    else option in
  let format' :=
    if implicit then
      if startswith format HYPHEN then [] else [0x7B; 0x7D]
    else format in
  if implicit
     && match option' with
        | [] => true
        | c :: _ => negb (is_hangul [c])
        end
  then OK None
  else
    let particle : ustr -> result ustr :=
      match _particle_index !! option' with
      | Some p => Particle_call p
      | None => fun word => Ida word option'
      end in
    formatted <- formatter_format format' value ;;
    suffix <- particle value ;;
    OK (Some (formatted ++ suffix)).

End HostExtension.

End SFK.

(** ** Vocabulary of the statements

    The arithmetic reading of a syllable, as the data model has it: the
    offset of a code point in the block is a mixed-radix number over 19
    onsets, 21 vowels and 28 codas. *)

Module Syllable.

Definition is_syllable (c : Z) : Prop := 0xAC00 <= c <= 0xD7A3.

Definition is_syllableb (c : Z) : bool := (0xAC00 <=? c) && (c <=? 0xD7A3).

Definition onset_index (c : Z) : Z := (c - 0xAC00) / (21 * 28).
Definition vowel_index (c : Z) : Z := ((c - 0xAC00) / 28) mod 21.
Definition coda_index (c : Z) : Z := (c - 0xAC00) mod 28.

(** The phonemes of a syllable, read in the tables of smartformatkorean.py;
    the coda of an open syllable is [None]. *)
Definition onset (c : Z) : pyval :=
  nth (Z.to_nat (onset_index c)) SFK.INITIALS PNone.
Definition vowel (c : Z) : pyval :=
  nth (Z.to_nat (vowel_index c)) SFK.VOWELS PNone.
Definition coda (c : Z) : pyval :=
  nth (Z.to_nat (coda_index c)) SFK.FINALS PNone.

(** hangul.py writes the absent coda as the empty string. *)
Definition absent_as_empty (v : pyval) : pyval :=
  match v with
  | PNone => PStr []
  | PStr s => PStr s
  end.

(** A syllable made of ㅇ (onset 11) and ㅣ (vowel 20), with any coda. *)
Definition starts_with_i (v : Z) : bool :=
  (onset_index v =? 11) && (vowel_index v =? 20).

(** Vowel fusion on the first syllable of a verb.  After an open syllable
    ㅓ and ㅔ (vowels 4 and 5) under the onset ㅇ become ㅕ and ㅖ (vowels 6
    and 7); otherwise ㅕ and ㅖ become ㅓ and ㅔ.  Two places in the vowel
    table are 2 * 28 code points. *)
Definition fuse (open : bool) (v : Z) : Z :=
  if onset_index v =? 11 then
    if open then
      if (vowel_index v =? 4) || (vowel_index v =? 5) then v + 56 else v
    else
      if (vowel_index v =? 6) || (vowel_index v =? 7) then v - 56 else v
  else v.

(** The value [Ida] holds in [final] when the stripped word ends in [c]:
    the coda of a syllable, the empty string for any other character. *)
Definition final_of (c : Z) : pyval :=
  if is_syllableb c then coda c else PStr [].

(** What is left of the rest of a verb once [normalize_verb] has passed its
    first character: every bracketed 이 is gone. *)
Definition rest_normalized (rest : ustr) : ustr :=
  SFK.sub_scan SFK.NORMALIZE_PATTERN false O rest.

(** What the code can observe of the vowel at index [i]: whether it is ㅣ,
    whether either direction of the bidict holds it, and where it is sent. *)
Definition vowel_check (i : Z) : bool :=
  let nv := nth (Z.to_nat i) SFK.VOWELS PNone in
  Bool.eqb (pyval_eqb nv SFK.VOWEL_I) (i =? 20)
  && Bool.eqb (SFK.dict_contains SFK.j_injections nv) ((i =? 4) || (i =? 5))
  && Bool.eqb (SFK.dict_contains (SFK.inv SFK.j_injections) nv)
       ((i =? 6) || (i =? 7))
  && (if (i =? 4) || (i =? 5)
      then match SFK.dict_getitem SFK.j_injections nv with
           | OK x => pyval_eqb x (nth (Z.to_nat (i + 2)) SFK.VOWELS PNone)
           | Raise _ => false
           end
      else true)
  && (if (i =? 6) || (i =? 7)
      then match SFK.dict_getitem (SFK.inv SFK.j_injections) nv with
           | OK x => pyval_eqb x (nth (Z.to_nat (i - 2)) SFK.VOWELS PNone)
           | Raise _ => false
           end
      else true).

(** The fused copula after a stripped word ending in [c], for a normalised
    verb [v :: rest]. *)
Definition copula (c v : Z) (rest : ustr) : ustr :=
  if starts_with_i v then v :: rest
  else
    let open := is_syllableb c && (coda_index c =? 0) in
    let verb := fuse open v :: rest in
    if open then verb
    else if negb (is_syllableb c)
         then [SFK.LPAREN; SFK.SYL_I; SFK.RPAREN] ++ verb
         else [SFK.SYL_I] ++ verb.

End Syllable.

Import Syllable.

(** ** Words and particles of the tests *)

Module Words.

(** 피카츄, 버터플, 고라파덕, 피카츄(Lv.25), Pikachu *)
Definition pikachu : ustr := [0xD53C; 0xCE74; 0xCE04].
Definition butterfree : ustr := [0xBC84; 0xD130; 0xD50C].
Definition golduck : ustr := [0xACE0; 0xB77C; 0xD30C; 0xB355].
Definition pikachu_lv25 : ustr :=
  [0xD53C; 0xCE74; 0xCE04; 0x28; 0x4C; 0x76; 0x2E; 0x32; 0x35; 0x29].
Definition pikachu_latin : ustr := [0x50; 0x69; 0x6B; 0x61; 0x63; 0x68; 0x75].

(** 곰(츄: a closed syllable, an opening bracket and an open syllable. *)
Definition gom_open_chu : ustr := [0xACF0; 0x28; 0xCE04].

(** The particles 은/는 and 을/를 of PARTICLES. *)
Definition eun_neun : SFK.Particle := SFK.Particle_init [0xC740] [0xB294] None.
Definition eul_reul : SFK.Particle := SFK.Particle_init [0xC744] [0xB97C] None.

(** The verbs 이다, 입니다, 이어요, 여요 and the spec (이). *)
Definition ida : ustr := [0xC774; 0xB2E4].
Definition imnida : ustr := [0xC785; 0xB2C8; 0xB2E4].
Definition ieoyo : ustr := [0xC774; 0xC5B4; 0xC694].
Definition yeoyo : ustr := [0xC5EC; 0xC694].
Definition bracketed_i : ustr := [0x28; 0xC774; 0x29].

(** A stand-in for the host's formatter in the checks below: every [{}] of
    the format is replaced by the value. *)
Fixpoint test_format (format value : ustr) : ustr :=
  match format with
  | 0x7B :: 0x7D :: format' => value ++ test_format format' value
  | c :: format' => c :: test_format format' value
  | [] => []
  end.

(** The extension name [ko] and the format [{}]. *)
Definition ko_name : ustr := [0x6B; 0x6F].
Definition braces : ustr := [0x7B; 0x7D].

End Words.

(** ** Checks against the tests of the repository *)

Example hangul_split_gom :
  Hangul.split_phonemes [0xACF0] true true true
  = OK (chr 0x3131, chr 0x3157, chr 0x3141).
Proof. reflexivity. Qed.

Example sfk_strip_level :
  SFK.re_sub SFK.ENDING_BRACKET_PATTERN [0xD53C; 0xCE74; 0xCE04; 0x28; 0x4C; 0x76; 0x2E; 0x32; 0x35; 0x29]
  = [0xD53C; 0xCE74; 0xCE04].
Proof. reflexivity. Qed.

Example sfk_euro_pikachu :
  SFK.Particle_call SFK.Euro [0xD53C; 0xCE74; 0xCE04] = OK [0xB85C].
Proof. reflexivity. Qed.

Example sfk_euro_latin :
  SFK.Particle_call SFK.Euro [0x50; 0x69] = OK [0x28; 0xC73C; 0x29; 0xB85C].
Proof. reflexivity. Qed.

Example sfk_ida_gom :
  SFK.Ida [0xACF0] [0xC774; 0xB2E4] = OK [0xC774; 0xB2E4].
Proof. reflexivity. Qed.

(** test_explicit: 피카츄 with 아 is 피카츄야, 고라파덕 with 아 is 고라파덕아,
    and with an empty format only the particle is returned. *)
Example test_explicit_pikachu :
  SFK.ko Words.test_format Words.pikachu Words.ko_name [0xC544] Words.braces
  = OK (Some (Words.pikachu ++ [0xC57C])).
Proof. vm_compute. reflexivity. Qed.

Example test_explicit_golduck :
  SFK.ko Words.test_format Words.golduck Words.ko_name [0xC544] Words.braces
  = OK (Some (Words.golduck ++ [0xC544])).
Proof. vm_compute. reflexivity. Qed.

Example test_explicit_empty_format :
  SFK.ko Words.test_format [0xC218; 0xBC15] Words.ko_name [0xC744] []
  = OK (Some [0xC744]).
Proof. vm_compute. reflexivity. Qed.

(** test_implicit: the format is the particle, or a hyphen and the
    particle. *)
Example test_implicit_butterfree :
  SFK.ko Words.test_format Words.butterfree [] [] [0xC544]
  = OK (Some (Words.butterfree ++ [0xC544])).
Proof. vm_compute. reflexivity. Qed.

Example test_implicit_hyphen :
  SFK.ko Words.test_format [0xC218; 0xBC15] [] [] [0x2D; 0xC744]
  = OK (Some [0xC744]).
Proof. vm_compute. reflexivity. Qed.

(** test_euro and test_braket. *)
Example test_euro_butterfree :
  SFK.ko Words.test_format Words.butterfree Words.ko_name [0xC73C; 0xB85C]
    Words.braces
  = OK (Some (Words.butterfree ++ [0xB85C])).
Proof. vm_compute. reflexivity. Qed.

Example test_euro_golduck :
  SFK.ko Words.test_format Words.golduck Words.ko_name [0xC73C; 0xB85C]
    Words.braces
  = OK (Some (Words.golduck ++ [0xC73C; 0xB85C])).
Proof. vm_compute. reflexivity. Qed.

Example test_euro_latin :
  SFK.ko Words.test_format Words.pikachu_latin Words.ko_name [0xC73C; 0xB85C]
    Words.braces
  = OK (Some (Words.pikachu_latin ++ [0x28; 0xC73C; 0x29; 0xB85C])).
Proof. vm_compute. reflexivity. Qed.

Example test_braket_level :
  SFK.ko Words.test_format Words.pikachu_lv25 Words.ko_name [0xC73C; 0xB85C]
    Words.braces
  = OK (Some (Words.pikachu_lv25 ++ [0xB85C])).
Proof. vm_compute. reflexivity. Qed.

(** 피카(?)츄: a bracket group inside the word is kept. *)
Example test_braket_inner :
  SFK.ko Words.test_format [0xD53C; 0xCE74; 0x28; 0x3F; 0x29; 0xCE04]
    Words.ko_name [0xC73C; 0xB85C] Words.braces
  = OK (Some ([0xD53C; 0xCE74; 0x28; 0x3F; 0x29; 0xCE04] ++ [0xB85C])).
Proof. vm_compute. reflexivity. Qed.

(** One string argument: three letters are joined, two are refused. *)
Example hangul_join_string_three :
  Hangul.join_phonemes (Positional [PStr [0x3131; 0x3157; 0x3141]])
  = OK [0xACF0].
Proof. reflexivity. Qed.

Example hangul_join_string_two :
  Hangul.join_phonemes (Positional [PStr [0x3131; 0x314F]])
  = Raise TypeError
  /\ SFK.join_phonemes (Positional [PStr [0x3131; 0x314F]])
     = Raise TypeError.
Proof. split; reflexivity. Qed.

Example sfk_index_lookup :
  SFK._particle_index !! ([0xB85C] : ustr) = Some SFK.Euro.
Proof. vm_compute. reflexivity. Qed.

(** ** Facts about the Python fragment *)

Section PyFacts.

Lemma ustr_eqb_eq (a b : ustr) : ustr_eqb a b = true <-> a = b.
Proof. unfold ustr_eqb. destruct (decide (a = b)); split; congruence. Qed.

Lemma pyval_eqb_eq (a b : pyval) : pyval_eqb a b = true <-> a = b.
Proof.
  destruct a as [|s], b as [|t]; simpl; try (split; congruence).
  rewrite ustr_eqb_eq. split; congruence.
Qed.

Lemma pyval_eqb_refl (a : pyval) : pyval_eqb a a = true.
Proof. now apply pyval_eqb_eq. Qed.

Lemma pyval_eqb_neq (a b : pyval) : a <> b -> pyval_eqb a b = false.
Proof.
  intros Hne. destruct (pyval_eqb a b) eqn:E; [|reflexivity].
  apply pyval_eqb_eq in E. contradiction.
Qed.

(** Inside its bounds [l[i]] is the [i]-th element. *)
Lemma getitem_nth_error {A} (l : list A) (i : Z) :
  0 <= i < Z.of_nat (length l) ->
  exists x, nth_error l (Z.to_nat i) = Some x /\ getitem l i = OK x.
Proof.
  intros Hi. unfold getitem.
  replace (i <? 0) with false by lia.
  replace ((0 <=? i) && (i <? Z.of_nat (length l))) with true by lia.
  destruct (nth_error l (Z.to_nat i)) as [x|] eqn:E.
  - now exists x.
  - apply nth_error_None in E. lia.
Qed.

Lemma getitem_nth {A} (l : list A) (i : Z) (d : A) :
  0 <= i < Z.of_nat (length l) -> getitem l i = OK (nth (Z.to_nat i) l d).
Proof.
  intros Hi. destruct (getitem_nth_error l i Hi) as (x & Hn & ->).
  f_equal. symmetry. now apply nth_error_nth.
Qed.

Lemma getitem_last {A} (init : list A) (c : A) :
  getitem (init ++ [c]) (-1) = OK c.
Proof.
  unfold getitem. rewrite length_app. cbn [length].
  replace (-1 <? 0) with true by lia.
  replace ((0 <=? -1 + Z.of_nat (length init + 1))
           && (-1 + Z.of_nat (length init + 1)
               <? Z.of_nat (length init + 1))) with true
    by (symmetry; apply andb_true_intro;
        split; [apply Z.leb_le | apply Z.ltb_lt]; lia).
  replace (Z.to_nat (-1 + Z.of_nat (length init + 1))) with (length init)
    by lia.
  rewrite nth_error_app2 by lia. now rewrite Nat.sub_diag.
Qed.

(** In a list without repetition, [index] finds the position an element was
    read from. *)
Lemma index_from_nth_error (l : list pyval) :
  NoDup l ->
  forall (n : nat) (x : pyval) (k : Z),
    nth_error l n = Some x -> index_from x l k = OK (k + Z.of_nat n).
Proof.
  induction 1 as [|y l Hy Hnd IH]; intros n x k Hn.
  - destruct n; discriminate.
  - destruct n as [|n]; simpl in *.
    + inversion Hn; subst. rewrite pyval_eqb_refl. f_equal. lia.
    + assert (Hin : x ∈ l)
        by (apply list_elem_of_In; eapply nth_error_In; eassumption).
      rewrite pyval_eqb_neq by (intros ->; contradiction).
      rewrite (IH n x (k + 1) Hn). f_equal. lia.
Qed.

Lemma list_index_getitem (l : list pyval) (i : Z) :
  NoDup l -> 0 <= i < Z.of_nat (length l) ->
  exists x, getitem l i = OK x /\ list_index l x = OK i.
Proof.
  intros Hnd Hi.
  destruct (getitem_nth_error l i Hi) as (x & Hn & Hg).
  exists x. split; [assumption|].
  unfold list_index. rewrite (index_from_nth_error l Hnd _ _ 0 Hn).
  f_equal. lia.
Qed.

(** On one-character strings the comparison of [is_hangul] is the range
    test on the code point. *)
Lemma ustr_le_single (x y : Z) : ustr_le [x] [y] = (x <=? y).
Proof.
  simpl. destruct (x <? y) eqn:E1; [lia|].
  destruct (x =? y) eqn:E2; lia.
Qed.

End PyFacts.

(** ** The codec of hangul.py *)

Section HangulCodec.

Lemma hangul_ONSETS_NoDup : NoDup Hangul.ONSETS.
Proof. apply (bool_decide_unpack _). vm_compute. reflexivity. Qed.

Lemma hangul_NUCLEUSES_NoDup : NoDup Hangul.NUCLEUSES.
Proof. apply (bool_decide_unpack _). vm_compute. reflexivity. Qed.

Lemma hangul_CODAS_NoDup : NoDup Hangul.CODAS.
Proof. apply (bool_decide_unpack _). vm_compute. reflexivity. Qed.

Lemma hangul_is_hangul_single (c : Z) :
  Hangul.is_hangul [c] = (0xAC00 <=? c) && (c <=? 0xD7A3).
Proof. unfold Hangul.is_hangul. now rewrite !ustr_le_single. Qed.

(** The three indices of a syllable lie inside their tables and recombine
    to its offset. *)
Lemma mixed_radix (off : Z) :
  0 <= off < 19 * 21 * 28 ->
  0 <= off / (21 * 28) < 19 /\
  0 <= (off / 28) mod 21 < 21 /\
  0 <= off mod 28 < 28 /\
  (off / (21 * 28) * 21 + (off / 28) mod 21) * 28 + off mod 28 = off.
Proof.
  intros Hoff.
  assert (Hdd : off / (21 * 28) = off / 28 / 21)
    by (rewrite Z.mul_comm; symmetry; apply Z.div_div; lia).
  rewrite Hdd.
  pose proof (Z.div_mod off 28 ltac:(lia)) as H28.
  pose proof (Z.mod_pos_bound off 28 ltac:(lia)) as B28.
  pose proof (Z.div_mod (off / 28) 21 ltac:(lia)) as H21.
  pose proof (Z.mod_pos_bound (off / 28) 21 ltac:(lia)) as B21.
  assert (0 <= off / 28) by (apply Z.div_pos; lia).
  assert (0 <= off / 28 / 21) by (apply Z.div_pos; lia).
  repeat split; try lia.
Qed.

End HangulCodec.

(** C1: for every code point of the Hangul syllable block, joining the
    phoneme tuple that [split_phonemes] of hangul.py returns gives the
    syllable back. *)
Theorem C1_join_split_roundtrip (c : Z) :
  0xAC00 <= c <= 0xD7A3 ->
  (t <- Hangul.split_phonemes [c] true true true ;;
   let '(onset, nucleus, coda) := t in
   Hangul.join_phonemes (Packed [onset; nucleus; coda])) = OK [c].
Proof.
  intros Hc.
  unfold Hangul.split_phonemes.
  rewrite hangul_is_hangul_single.
  replace ((44032 <=? c) && (c <=? 55203)) with true by lia.
  cbn [negb].
  change Hangul.NUM_NUCLEUSES with 21. change Hangul.NUM_CODAS with 28.
  unfold Hangul.FIRST_HANGUL_OFFSET.
  set (off := c - 44032).
  destruct (mixed_radix off ltac:(unfold off; lia)) as (Ho & Hn & Hk & Hsum).
  destruct (list_index_getitem _ _ hangul_ONSETS_NoDup Ho) as (o & Hgo & Hio).
  destruct (list_index_getitem _ _ hangul_NUCLEUSES_NoDup Hn)
    as (n & Hgn & Hin).
  destruct (list_index_getitem _ _ hangul_CODAS_NoDup Hk) as (k & Hgk & Hik).
  rewrite Hgo, Hgn, Hgk. cbn [bind].
  unfold Hangul.join_phonemes. cbn [unpack_args bind length Nat.eqb].
  rewrite Hio, Hin, Hik. cbn [bind].
  change Hangul.NUM_NUCLEUSES with 21. change Hangul.NUM_CODAS with 28.
  unfold Hangul.FIRST_HANGUL_OFFSET. rewrite Hsum.
  unfold unichr, off.
  replace ((0 <=? 44032 + (c - 44032)) && (44032 + (c - 44032) <=? 1114111))
    with true by lia.
  f_equal. f_equal. lia.
Qed.

(** The round trip at 곰 (U+ACF0). *)
Lemma C1_join_split_roundtrip_witness :
  0xAC00 <= 0xACF0 <= 0xD7A3 /\
  (t <- Hangul.split_phonemes [0xACF0] true true true ;;
   let '(onset, nucleus, coda) := t in
   Hangul.join_phonemes (Packed [onset; nucleus; coda])) = OK [0xACF0].
Proof. split; [lia | apply (C1_join_split_roundtrip 0xACF0); lia]. Defined.

(** ** The codec of smartformatkorean.py *)

Section SFKCodec.

Lemma is_syllableb_true (c : Z) : is_syllableb c = true <-> is_syllable c.
Proof. unfold is_syllableb, is_syllable. lia. Qed.

Lemma is_syllableb_false (c : Z) : is_syllableb c = false <-> ~ is_syllable c.
Proof. unfold is_syllableb, is_syllable. lia. Qed.

Lemma sfk_is_hangul_single (c : Z) : SFK.is_hangul [c] = is_syllableb c.
Proof. unfold SFK.is_hangul. now rewrite !ustr_le_single. Qed.

Lemma syllable_indices (c : Z) :
  is_syllable c ->
  0 <= onset_index c < 19 /\
  0 <= vowel_index c < 21 /\
  0 <= coda_index c < 28 /\
  0xAC00 + ((onset_index c * 21 + vowel_index c) * 28 + coda_index c) = c.
Proof.
  unfold is_syllable, onset_index, vowel_index, coda_index. intros Hc.
  destruct (mixed_radix (c - 44032) ltac:(lia)) as (Ho & Hv & Hk & Hsum).
  repeat split; try lia.
Qed.

Lemma sfk_split_phonemes_syllable (c : Z) (initial vowel final : bool) :
  is_syllable c ->
  SFK.split_phonemes [c] initial vowel final
  = OK (if initial then onset c else PNone,
        if vowel then Syllable.vowel c else PNone,
        if final then coda c else PNone).
Proof.
  intros Hc. destruct (syllable_indices c Hc) as (Ho & Hv & Hk & _).
  unfold SFK.split_phonemes. rewrite sfk_is_hangul_single.
  apply is_syllableb_true in Hc. rewrite Hc. cbn [negb].
  change SFK.NUM_VOWELS with 21. change SFK.NUM_FINALS with 28.
  unfold SFK.FIRST_HANGUL_OFFSET.
  fold (onset_index c) (vowel_index c) (coda_index c).
  rewrite (getitem_nth SFK.INITIALS _ PNone) by exact Ho.
  rewrite (getitem_nth SFK.VOWELS _ PNone) by exact Hv.
  rewrite (getitem_nth SFK.FINALS _ PNone) by exact Hk.
  now destruct initial, vowel, final.
Qed.

Lemma sfk_split_phonemes_not_syllable (c : Z) (initial vowel final : bool) :
  ~ is_syllable c ->
  SFK.split_phonemes [c] initial vowel final = Raise ValueError.
Proof.
  intros Hc. unfold SFK.split_phonemes. rewrite sfk_is_hangul_single.
  apply is_syllableb_false in Hc. now rewrite Hc.
Qed.

Lemma hangul_split_phonemes_syllable (c : Z) :
  is_syllable c ->
  Hangul.split_phonemes [c] true true true
  = OK (onset c, vowel c, absent_as_empty (coda c)).
Proof.
  intros Hc. destruct (syllable_indices c Hc) as (Ho & Hv & Hk & _).
  unfold Hangul.split_phonemes. rewrite hangul_is_hangul_single.
  apply is_syllableb_true in Hc. unfold is_syllableb in Hc. rewrite Hc.
  cbn [negb].
  change Hangul.NUM_NUCLEUSES with 21. change Hangul.NUM_CODAS with 28.
  unfold Hangul.FIRST_HANGUL_OFFSET.
  fold (onset_index c) (vowel_index c) (coda_index c).
  rewrite (getitem_nth Hangul.ONSETS _ PNone) by exact Ho.
  rewrite (getitem_nth Hangul.NUCLEUSES _ PNone) by exact Hv.
  rewrite (getitem_nth Hangul.CODAS _ (absent_as_empty PNone)) by exact Hk.
  cbn [bind]. unfold onset, vowel, coda.
  change Hangul.CODAS with (map absent_as_empty SFK.FINALS).
  now rewrite map_nth.
Qed.

(** No entry of FINALS is the empty string. *)
Lemma coda_not_empty (c : Z) : is_syllable c -> coda c <> PStr [].
Proof.
  intros Hc. destruct (syllable_indices c Hc) as (_ & _ & Hk & _).
  assert (Hall : Forall (fun f => f <> PStr []) SFK.FINALS)
    by (apply (bool_decide_unpack _); vm_compute; reflexivity).
  rewrite Forall_forall in Hall. apply Hall.
  apply list_elem_of_In, nth_In. change (length SFK.FINALS) with 28%nat. lia.
Qed.

End SFKCodec.

(** Under floor division the two copies of [split_phonemes] agree on every
    Hangul syllable: the same onset and the same vowel, and the same coda up
    to the way each copy writes the absent one, [None] in
    smartformatkorean.py and the empty string in hangul.py.  The coda of
    smartformatkorean.py is never the empty string itself. *)
Lemma split_phonemes_copies_agree_floor (c : Z) :
  0xAC00 <= c <= 0xD7A3 ->
  exists initial vowel final,
    SFK.split_phonemes [c] true true true = OK (initial, vowel, final) /\
    Hangul.split_phonemes [c] true true true
    = OK (initial, vowel, absent_as_empty final) /\
    final <> PStr [].
Proof.
  intros Hc. exists (onset c), (Syllable.vowel c), (coda c).
  split; [|split].
  - now rewrite sfk_split_phonemes_syllable.
  - now apply hangul_split_phonemes_syllable.
  - now apply coda_not_empty.
Qed.

(** Under true division [split_phonemes] of smartformatkorean.py raises
    TypeError on a syllable as soon as the initial or the vowel is asked
    for, and answers as under floor division when only the final is. *)
Lemma split_phonemes_true_division_fields
  (c : Z) (initial vowel final : bool) :
  is_syllable c ->
  SFK.split_phonemes_true_division [c] initial vowel final
  = if initial || vowel then Raise TypeError
    else SFK.split_phonemes [c] initial vowel final.
Proof.
  intros Hc. rewrite sfk_split_phonemes_syllable by assumption.
  destruct (syllable_indices c Hc) as (_ & _ & Hk & _).
  unfold SFK.split_phonemes_true_division. rewrite sfk_is_hangul_single.
  apply is_syllableb_true in Hc. rewrite Hc. cbn [negb].
  change SFK.NUM_FINALS with 28. unfold SFK.FIRST_HANGUL_OFFSET.
  fold (coda_index c).
  destruct initial; [reflexivity|]. destruct vowel; [reflexivity|].
  cbn [bind orb true_div num_mod getitem_num].
  destruct final; [|reflexivity].
  now rewrite (getitem_nth SFK.FINALS _ PNone) by exact Hk.
Qed.

(** C2: the code where the two copies part.  On an interpreter whose [/] is
    true division the copy of smartformatkorean.py raises TypeError on every
    Hangul syllable, at the first table it indexes with a quotient, while
    the copy of hangul.py, which divides with [//], returns the three
    phonemes. *)
Theorem C2_true_division_raises (c : Z) :
  0xAC00 <= c <= 0xD7A3 ->
  SFK.split_phonemes_true_division [c] true true true = Raise TypeError /\
  Hangul.split_phonemes [c] true true true
  = OK (onset c, vowel c, absent_as_empty (coda c)).
Proof.
  intros Hc. split.
  - now rewrite split_phonemes_true_division_fields.
  - now apply hangul_split_phonemes_syllable.
Qed.

(** At 곰 (U+ACF0): TypeError in one copy, ㄱ ㅗ ㅁ in the other. *)
Lemma C2_true_division_raises_witness :
  0xAC00 <= 0xACF0 <= 0xD7A3 /\
  SFK.split_phonemes_true_division [0xACF0] true true true
  = Raise TypeError /\
  Hangul.split_phonemes [0xACF0] true true true
  = OK (onset 0xACF0, vowel 0xACF0, absent_as_empty (coda 0xACF0)).
Proof.
  split; [lia | apply (C2_true_division_raises 0xACF0); lia].
Defined.

(** ** Bracket stripping *)

Section Stripping.

Lemma at_dollar_plain_end (init : ustr) (c : Z) :
  c <> SFK.LF -> SFK.at_dollar (init ++ [c]) = false.
Proof.
  intros Hc. destruct init as [|a [|b init]]; simpl; [lia | | ].
  - reflexivity.
  - now destruct (init ++ [c]).
Qed.

(** The pattern can only end on a closing bracket, or on one followed by the
    last line feed. *)
Lemma match_lazy_close_plain_end (init : ustr) (c : Z) :
  c <> SFK.RPAREN -> c <> SFK.LF ->
  SFK.match_lazy_close (init ++ [c]) = None.
Proof.
  intros Hr Hl. induction init as [|a init IH]; simpl.
  - replace (c =? SFK.RPAREN) with false by lia.
    replace (c =? SFK.LF) with false by lia. reflexivity.
  - rewrite at_dollar_plain_end by assumption.
    rewrite andb_false_r, IH. now destruct (a =? SFK.LF).
Qed.

Lemma strip_plain_end (init : ustr) (c : Z) (b : bool) :
  c <> SFK.RPAREN -> c <> SFK.LF ->
  SFK.sub_scan SFK.ENDING_BRACKET_PATTERN b O (init ++ [c]) = init ++ [c].
Proof.
  intros Hr Hl. revert b. induction init as [|a init IH]; intros b; simpl.
  - now destruct (c =? SFK.LPAREN).
  - rewrite match_lazy_close_plain_end by assumption.
    destruct (a =? SFK.LPAREN); simpl; now rewrite IH.
Qed.

Lemma match_lazy_close_group (s : ustr) :
  ~ In SFK.LF s ->
  SFK.match_lazy_close (s ++ [SFK.RPAREN]) = Some (S (length s)).
Proof.
  induction s as [|a s IH]; intros Hs; [reflexivity|].
  simpl. rewrite at_dollar_plain_end by (unfold SFK.RPAREN, SFK.LF; lia).
  rewrite andb_false_r.
  destruct (Z.eqb_spec a SFK.LF) as [->|_]; [exfalso; apply Hs; now left|].
  rewrite IH by (intros Hin; apply Hs; now right). reflexivity.
Qed.

Lemma sub_scan_skip_all (pattern : bool -> ustr -> option nat) (b : bool)
  (t : ustr) :
  SFK.sub_scan pattern b (length t) t = [].
Proof. revert b. induction t as [|a t IH]; intros b; simpl; auto. Qed.

(** A group that closes the word is dropped whole when no bracket opens
    before it. *)
Lemma strip_trailing_group (w s : ustr) (b : bool) :
  ~ In SFK.LPAREN w -> ~ In SFK.LF s ->
  SFK.sub_scan SFK.ENDING_BRACKET_PATTERN b O
    (w ++ [SFK.LPAREN] ++ s ++ [SFK.RPAREN]) = w.
Proof.
  intros Hw Hs. revert b. induction w as [|a w IH]; intros b.
  - simpl. rewrite match_lazy_close_group by assumption. simpl.
    replace (S (length s)) with (length (s ++ [SFK.RPAREN]))
      by (rewrite length_app; simpl; lia).
    destruct (s ++ [SFK.RPAREN]) as [|x t] eqn:E; [reflexivity|].
    simpl. apply sub_scan_skip_all.
  - cbn [app SFK.sub_scan SFK.ENDING_BRACKET_PATTERN].
    destruct (Z.eqb_spec a SFK.LPAREN) as [->|_];
      [exfalso; apply Hw; now left|].
    rewrite IH by (intros Hin; apply Hw; now right). reflexivity.
Qed.

Lemma strip_no_open (w : ustr) (b : bool) :
  ~ In SFK.LPAREN w ->
  SFK.sub_scan SFK.ENDING_BRACKET_PATTERN b O w = w.
Proof.
  intros Hw. revert b. induction w as [|a w IH]; intros b; [reflexivity|].
  cbn [SFK.sub_scan SFK.ENDING_BRACKET_PATTERN].
  destruct (Z.eqb_spec a SFK.LPAREN) as [->|_];
    [exfalso; apply Hw; now left|].
  rewrite IH by (intros Hin; apply Hw; now right). reflexivity.
Qed.

End Stripping.

(** ** Particle selection *)

Section Selection.

(** Small ranges are settled by running the check on each index. *)
Lemma forallb_range (n : nat) (P : Z -> bool) :
  forallb P (map Z.of_nat (seq 0 n)) = true ->
  forall i, 0 <= i < Z.of_nat n -> P i = true.
Proof.
  intros H i Hi. rewrite forallb_forall in H. apply H.
  apply in_map_iff. exists (Z.to_nat i). split; [lia|].
  apply in_seq. lia.
Qed.

Lemma coda_is_none (c : Z) :
  is_syllable c -> is_none (coda c) = (coda_index c =? 0).
Proof.
  intros Hc. destruct (syllable_indices c Hc) as (_ & _ & Hk & _).
  unfold coda. apply Bool.eqb_prop.
  apply (forallb_range 28
           (fun i => Bool.eqb
                       (is_none (nth (Z.to_nat i) SFK.FINALS PNone))
                       (i =? 0))); [reflexivity | exact Hk].
Qed.

Lemma coda_is_rieul (c : Z) :
  is_syllable c -> pyval_eqb (coda c) SFK.RIEUL = (coda_index c =? 8).
Proof.
  intros Hc. destruct (syllable_indices c Hc) as (_ & _ & Hk & _).
  unfold coda. apply Bool.eqb_prop.
  apply (forallb_range 28
           (fun i => Bool.eqb
                       (pyval_eqb (nth (Z.to_nat i) SFK.FINALS PNone)
                                  SFK.RIEUL)
                       (i =? 8))); [vm_compute; reflexivity | exact Hk].
Qed.

(** The coda is absent exactly at coda index 0. *)
Lemma coda_absent_iff (c : Z) :
  is_syllable c -> coda c = PNone <-> coda_index c = 0.
Proof.
  intros Hc. pose proof (coda_is_none c Hc) as H.
  destruct (coda c) eqn:E; simpl in H; split; intros; try lia; congruence.
Qed.

Lemma pick_final_syllable (c : Z) :
  is_syllable c -> SFK.pick_final [c] = OK (coda c).
Proof.
  intros Hc. unfold SFK.pick_final.
  now rewrite sfk_split_phonemes_syllable.
Qed.

Lemma pick_final_not_syllable (c : Z) :
  ~ is_syllable c -> SFK.pick_final [c] = Raise ValueError.
Proof.
  intros Hc. unfold SFK.pick_final.
  now rewrite sfk_split_phonemes_not_syllable.
Qed.

(** What [__call__] does once the stripped word is known to end in [c]. *)
Lemma Particle_call_stripped (p : SFK.Particle) (word init : ustr) (c : Z) :
  SFK.re_sub SFK.ENDING_BRACKET_PATTERN word = init ++ [c] ->
  SFK.Particle_call p word
  = OK (if is_syllableb c then SFK.allomorph p (coda c) else SFK.default p).
Proof.
  intros Hw. unfold SFK.Particle_call. rewrite Hw.
  unfold str_getitem. rewrite getitem_last. cbn [bind].
  destruct (is_syllableb c) eqn:E.
  - apply is_syllableb_true in E. now rewrite pick_final_syllable.
  - apply is_syllableb_false in E. now rewrite pick_final_not_syllable.
Qed.

End Selection.

(** C3: once the trailing bracket group is stripped and the word that is
    left ends in the character [c], a regular particle selects [form2] when
    [c] is a Hangul syllable without coda, [form1] when [c] is a Hangul
    syllable with a coda, and its default form when [c] is no Hangul
    syllable. *)
Theorem C3_regular_particle_select
  (form1 form2 : ustr) (dflt : option ustr) (word init : ustr) (c : Z) :
  SFK.re_sub SFK.ENDING_BRACKET_PATTERN word = init ++ [c] ->
  (is_syllable c -> coda c = PNone ->
   SFK.Particle_call (SFK.Particle_init form1 form2 dflt) word = OK form2) /\
  (is_syllable c -> coda c <> PNone ->
   SFK.Particle_call (SFK.Particle_init form1 form2 dflt) word = OK form1) /\
  (~ is_syllable c ->
   SFK.Particle_call (SFK.Particle_init form1 form2 dflt) word
   = OK (SFK.default (SFK.Particle_init form1 form2 dflt))).
Proof.
  intros Hw. rewrite (Particle_call_stripped _ word init c Hw).
  split; [|split].
  - intros Hc Hk. apply is_syllableb_true in Hc. rewrite Hc.
    unfold SFK.allomorph. now rewrite Hk.
  - intros Hc Hk. apply is_syllableb_true in Hc. rewrite Hc.
    unfold SFK.allomorph. cbn [SFK.cls SFK.Particle_init].
    destruct (coda c); [contradiction | reflexivity].
  - intros Hc. apply is_syllableb_false in Hc. now rewrite Hc.
Qed.

(** 피카츄(Lv.25) with 은/는: the stripped word ends in the open syllable 츄
    and the particle is 는. *)
Lemma C3_regular_particle_select_witness :
  SFK.re_sub SFK.ENDING_BRACKET_PATTERN Words.pikachu_lv25
  = [0xD53C; 0xCE74] ++ [0xCE04] /\
  SFK.Particle_call (SFK.Particle_init [0xC740] [0xB294] None)
    Words.pikachu_lv25 = OK [0xB294].
Proof.
  split; [reflexivity|].
  apply (proj1 (C3_regular_particle_select [0xC740] [0xB294] None
                  Words.pikachu_lv25 [0xD53C; 0xCE74] 0xCE04 eq_refl)).
  - unfold is_syllable. lia.
  - reflexivity.
Defined.

(** C6, as stated, fails: 피카츄(Lv.25) ends in a closing bracket, which is
    no Hangul syllable, and the directional particle is 로, not the default
    (으)로.  The test of the repository on this word expects 로. *)
Lemma C6_last_character_counterexample :
  Words.pikachu_lv25 = removelast Words.pikachu_lv25 ++ [SFK.RPAREN] /\
  ~ is_syllable SFK.RPAREN /\
  SFK.Particle_call SFK.Euro Words.pikachu_lv25 = OK [0xB85C] /\
  SFK.Particle_call SFK.Euro Words.pikachu_lv25 <> OK (SFK.default SFK.Euro).
Proof.
  split; [reflexivity|]. split; [unfold is_syllable, SFK.RPAREN; lia|].
  split; [reflexivity|]. vm_compute. discriminate.
Qed.

(** C6, amended: once the trailing bracket group is stripped and the word
    that is left ends in [c], the directional particle is 로 when [c] is a
    Hangul syllable whose coda is absent or ㄹ, 으로 when [c] is a Hangul
    syllable with any other coda, and (으)로 when [c] is no Hangul
    syllable. *)
Theorem C6_euro_select (word init : ustr) (c : Z) :
  SFK.re_sub SFK.ENDING_BRACKET_PATTERN word = init ++ [c] ->
  (is_syllable c -> coda c = PNone \/ coda c = SFK.RIEUL ->
   SFK.Particle_call SFK.Euro word = OK [0xB85C]) /\
  (is_syllable c -> coda c <> PNone -> coda c <> SFK.RIEUL ->
   SFK.Particle_call SFK.Euro word = OK [0xC73C; 0xB85C]) /\
  (~ is_syllable c ->
   SFK.Particle_call SFK.Euro word = OK [0x28; 0xC73C; 0x29; 0xB85C]).
Proof.
  intros Hw. rewrite (Particle_call_stripped _ word init c Hw).
  split; [|split].
  - intros Hc Hk. apply is_syllableb_true in Hc. rewrite Hc.
    unfold SFK.allomorph. cbn [SFK.cls SFK.Euro].
    destruct Hk as [-> | ->]; reflexivity.
  - intros Hc Hn Hr. apply is_syllableb_true in Hc. rewrite Hc.
    unfold SFK.allomorph. cbn [SFK.cls SFK.Euro].
    destruct (coda c) as [|k] eqn:E; [contradiction|]. cbn [is_none orb].
    rewrite pyval_eqb_neq by assumption. reflexivity.
  - intros Hc. apply is_syllableb_false in Hc. now rewrite Hc.
Qed.

(** 버터플 ends in 플, whose coda is ㄹ: the particle is 로. *)
Lemma C6_euro_select_witness :
  SFK.re_sub SFK.ENDING_BRACKET_PATTERN Words.butterfree
  = [0xBC84; 0xD130] ++ [0xD50C] /\
  SFK.Particle_call SFK.Euro Words.butterfree = OK [0xB85C].
Proof.
  split; [reflexivity|].
  apply (proj1 (C6_euro_select Words.butterfree [0xBC84; 0xD130] 0xD50C
                  eq_refl)).
  - unfold is_syllable. lia.
  - right. reflexivity.
Defined.

(** C7: the code at the failing inputs.  A word that is empty, or empty once
    its bracket group is stripped, makes [word[-1]] raise IndexError, which
    the handler for ValueError lets through, in particle selection and in
    copula fusion alike. *)
Theorem C7_empty_word_raises :
  SFK.Particle_call Words.eun_neun [] = Raise IndexError /\
  SFK.Particle_call Words.eun_neun [0x28; 0x4C; 0x76; 0x29]
  = Raise IndexError /\
  SFK.Particle_call SFK.Euro [] = Raise IndexError /\
  SFK.Ida [] Words.ida = Raise IndexError.
Proof. repeat split; reflexivity. Qed.

(** C10, as stated, fails.  After 곰(츄 the annotation (x) is stripped
    together with everything from the first opening bracket, so the particle
    follows 곰 instead of 츄; and an annotation holding a line feed is not
    stripped at all. *)
Lemma C10_bracket_invariance_counterexample :
  (~ In SFK.LPAREN [0x78] /\ ~ In SFK.RPAREN [0x78] /\
   SFK.Particle_call Words.eun_neun
     (Words.gom_open_chu ++ [SFK.LPAREN] ++ [0x78] ++ [SFK.RPAREN])
   = OK [0xC740] /\
   SFK.Particle_call Words.eun_neun Words.gom_open_chu = OK [0xB294]) /\
  (~ In SFK.LPAREN [SFK.LF] /\ ~ In SFK.RPAREN [SFK.LF] /\
   SFK.Particle_call Words.eun_neun
     (Words.pikachu ++ [SFK.LPAREN] ++ [SFK.LF] ++ [SFK.RPAREN])
   = OK [0xC740; 0x28; 0xB294; 0x29] /\
   SFK.Particle_call Words.eun_neun Words.pikachu = OK [0xB294]).
Proof.
  repeat split; try reflexivity;
    unfold SFK.LPAREN, SFK.RPAREN, SFK.LF; simpl; lia.
Qed.

(** C10, amended: for every particle, every word [w] holding no opening
    bracket and every annotation [s] holding no line feed, the selection on
    [w(s)] is the selection on [w]: the same form, or the same exception when
    [w] is empty. *)
Theorem C10_trailing_bracket_invariance (p : SFK.Particle) (w s : ustr) :
  ~ In SFK.LPAREN w -> ~ In SFK.LF s ->
  SFK.Particle_call p (w ++ [SFK.LPAREN] ++ s ++ [SFK.RPAREN])
  = SFK.Particle_call p w.
Proof.
  intros Hw Hs. unfold SFK.Particle_call, SFK.re_sub.
  rewrite strip_trailing_group by assumption.
  now rewrite strip_no_open by assumption.
Qed.

(** 피카츄(Lv.25) and 피카츄 take the same form of 을/를. *)
Lemma C10_trailing_bracket_invariance_witness :
  ~ In SFK.LPAREN Words.pikachu /\
  ~ In SFK.LF [0x4C; 0x76; 0x2E; 0x32; 0x35] /\
  SFK.Particle_call Words.eul_reul
    (Words.pikachu ++ [SFK.LPAREN] ++ [0x4C; 0x76; 0x2E; 0x32; 0x35]
     ++ [SFK.RPAREN])
  = SFK.Particle_call Words.eul_reul Words.pikachu.
Proof.
  assert (H1 : ~ In SFK.LPAREN Words.pikachu)
    by (unfold SFK.LPAREN; simpl; lia).
  assert (H2 : ~ In SFK.LF [0x4C; 0x76; 0x2E; 0x32; 0x35])
    by (unfold SFK.LF; simpl; lia).
  split; [exact H1|]. split; [exact H2|].
  exact (C10_trailing_bracket_invariance Words.eul_reul Words.pikachu
           [0x4C; 0x76; 0x2E; 0x32; 0x35] H1 H2).
Defined.

(** ** The copula *)

Section Copula.

Lemma sfk_INITIALS_NoDup : NoDup SFK.INITIALS.
Proof. apply (bool_decide_unpack _). vm_compute. reflexivity. Qed.

Lemma sfk_VOWELS_NoDup : NoDup SFK.VOWELS.
Proof. apply (bool_decide_unpack _). vm_compute. reflexivity. Qed.

Lemma sfk_FINALS_NoDup : NoDup SFK.FINALS.
Proof. apply (bool_decide_unpack _). vm_compute. reflexivity. Qed.

Lemma list_index_nth (l : list pyval) (i : Z) (d : pyval) :
  NoDup l -> 0 <= i < Z.of_nat (length l) ->
  list_index l (nth (Z.to_nat i) l d) = OK i.
Proof.
  intros Hnd Hi.
  destruct (list_index_getitem l i Hnd Hi) as (x & Hg & Hx).
  rewrite (getitem_nth l i d Hi) in Hg. injection Hg as <-. exact Hx.
Qed.

Lemma onset_is_ieung (v : Z) :
  is_syllable v -> pyval_eqb (onset v) SFK.IEUNG = (onset_index v =? 11).
Proof.
  intros Hv. destruct (syllable_indices v Hv) as (Ho & _).
  unfold onset. apply Bool.eqb_prop.
  apply (forallb_range 19
           (fun i => Bool.eqb
                       (pyval_eqb (nth (Z.to_nat i) SFK.INITIALS PNone)
                                  SFK.IEUNG)
                       (i =? 11))); [vm_compute; reflexivity | exact Ho].
Qed.

Lemma vowel_checked (v : Z) :
  is_syllable v -> vowel_check (vowel_index v) = true.
Proof.
  intros Hv. destruct (syllable_indices v Hv) as (_ & Hi & _).
  apply (forallb_range 21 vowel_check); [vm_compute; reflexivity | exact Hi].
Qed.

Lemma unpack_args_three (a b c : pyval) :
  unpack_args (Positional [a; b; c]) = OK [a; b; c].
Proof. now destruct a. Qed.

(** Joining ㅇ, the vowel at index [i] and the coda of [v] moves [v] by the
    distance between the two vowels. *)
Lemma join_ieung (v : Z) (i : Z) :
  is_syllable v -> onset_index v = 11 -> 0 <= i < 21 ->
  SFK.join_phonemes
    (Positional [SFK.IEUNG; nth (Z.to_nat i) SFK.VOWELS PNone; coda v])
  = OK [v + (i - vowel_index v) * 28].
Proof.
  intros Hv Ho Hi.
  destruct (syllable_indices v Hv) as (_ & Hvi & Hk & Hsum).
  unfold SFK.join_phonemes. rewrite unpack_args_three.
  cbn [bind length Nat.eqb].
  change SFK.IEUNG with (nth (Z.to_nat 11) SFK.INITIALS PNone).
  unfold coda.
  rewrite (list_index_nth _ _ _ sfk_INITIALS_NoDup) by (cbn; lia).
  rewrite (list_index_nth _ _ _ sfk_VOWELS_NoDup) by (cbn; lia).
  rewrite (list_index_nth _ _ _ sfk_FINALS_NoDup) by (cbn; lia).
  cbn [bind].
  change SFK.NUM_VOWELS with 21. change SFK.NUM_FINALS with 28.
  unfold SFK.FIRST_HANGUL_OFFSET, unichr.
  rewrite Ho in Hsum. unfold is_syllable in Hv.
  replace (44032 + ((11 * 21 + i) * 28 + coda_index v))
    with (v + (i - vowel_index v) * 28) by lia.
  replace ((0 <=? v + (i - vowel_index v) * 28)
           && (v + (i - vowel_index v) * 28 <=? 1114111)) with true by lia.
  reflexivity.
Qed.

Lemma Ida_final (init : ustr) (c : Z) :
  match (l <- str_getitem (init ++ [c]) (-1) ;; SFK.pick_final l) with
  | Raise ValueError => OK (PStr [])
  | r => r
  end = OK (final_of c).
Proof.
  unfold str_getitem, final_of. rewrite getitem_last. cbn [bind].
  destruct (is_syllableb c) eqn:E.
  - apply is_syllableb_true in E. now rewrite pick_final_syllable.
  - apply is_syllableb_false in E. now rewrite pick_final_not_syllable.
Qed.

Lemma final_of_is_none (c : Z) :
  is_none (final_of c) = is_syllableb c && (coda_index c =? 0).
Proof.
  unfold final_of. destruct (is_syllableb c) eqn:E; [|reflexivity].
  apply is_syllableb_true in E. now rewrite coda_is_none.
Qed.

Lemma final_of_is_empty (c : Z) :
  pyval_eqb (final_of c) (PStr []) = negb (is_syllableb c).
Proof.
  unfold final_of. destruct (is_syllableb c) eqn:E; [|reflexivity].
  apply is_syllableb_true in E.
  apply pyval_eqb_neq. now apply coda_not_empty.
Qed.

(** [Ida] on a word that is not empty once stripped and a verb whose
    normalised form starts with a syllable. *)
Lemma Ida_outcome (word verb init rest : ustr) (c v : Z) :
  SFK.re_sub SFK.ENDING_BRACKET_PATTERN word = init ++ [c] ->
  SFK.normalize_verb verb = v :: rest ->
  is_syllable v ->
  SFK.Ida word verb = OK (copula c v rest).
Proof.
  intros Hw Hn Hv. unfold SFK.Ida. rewrite Hw, Hn, Ida_final. cbn [bind].
  change (str_getitem (v :: rest) 0) with (OK (A := ustr) [v]). cbn [bind].
  rewrite sfk_split_phonemes_syllable by assumption. cbn [bind].
  rewrite onset_is_ieung by assumption.
  pose proof (vowel_checked v Hv) as Hchk. unfold vowel_check in Hchk.
  cbv zeta in Hchk. fold (vowel v) in Hchk.
  repeat (apply andb_prop in Hchk; destruct Hchk as [Hchk ?]).
  apply Bool.eqb_prop in Hchk. rewrite Hchk.
  rewrite final_of_is_none, final_of_is_empty.
  unfold copula, starts_with_i, fuse.
  destruct (onset_index v =? 11) eqn:Eo; cbn [andb].
  - apply Z.eqb_eq in Eo.
    destruct (vowel_index v =? 20) eqn:E20; [reflexivity|].
    destruct (is_syllableb c && (coda_index c =? 0)) eqn:Eopen;
      cbn [andb negb].
    + match goal with
      | Hc : eqb (SFK.dict_contains SFK.j_injections _) _ = true |- _ =>
          apply Bool.eqb_prop in Hc; rewrite Hc
      end.
      destruct ((vowel_index v =? 4) || (vowel_index v =? 5)) eqn:E45;
        [|reflexivity].
      destruct (SFK.dict_getitem SFK.j_injections (vowel v)) as [x|];
        [|discriminate].
      match goal with
      | Hx : pyval_eqb x _ = true |- _ => apply pyval_eqb_eq in Hx; subst x
      end.
      cbn [bind]. rewrite join_ieung by (assumption || lia). cbn [bind].
      replace (v + (vowel_index v + 2 - vowel_index v) * 28) with (v + 56)
        by lia.
      reflexivity.
    + match goal with
      | Hc : eqb (SFK.dict_contains (SFK.inv _) _) _ = true |- _ =>
          apply Bool.eqb_prop in Hc; rewrite Hc
      end.
      destruct ((vowel_index v =? 6) || (vowel_index v =? 7)) eqn:E67.
      * destruct (SFK.dict_getitem (SFK.inv SFK.j_injections) (vowel v))
          as [x|]; [|discriminate].
        match goal with
        | Hx : pyval_eqb x _ = true |- _ => apply pyval_eqb_eq in Hx; subst x
        end.
        cbn [bind]. rewrite join_ieung by (assumption || lia). cbn [bind].
        replace (v + (vowel_index v - 2 - vowel_index v) * 28) with (v - 56)
          by lia.
        now destruct (negb (is_syllableb c)).
      * now destruct (negb (is_syllableb c)).
  - destruct (is_syllableb c && (coda_index c =? 0)); [reflexivity|].
    now destruct (negb (is_syllableb c)).
Qed.

End Copula.

(** C4, as stated, fails: the suppression before a verb that starts with ㅇ
    and ㅣ does not depend on the word.  After Pikachu, whose last character
    is no Hangul syllable, 입니다 comes back unchanged, not as (이)입니다. *)
Lemma C4_ida_prefix_counterexample :
  ~ is_syllable 0x75 /\
  Words.pikachu_latin = removelast Words.pikachu_latin ++ [0x75] /\
  SFK.normalize_verb Words.imnida = Words.imnida /\
  SFK.Ida Words.pikachu_latin Words.imnida = OK Words.imnida /\
  SFK.Ida Words.pikachu_latin Words.imnida
  <> OK ([SFK.LPAREN; SFK.SYL_I; SFK.RPAREN] ++ Words.imnida).
Proof.
  split; [unfold is_syllable; lia|]. repeat split; try reflexivity.
  vm_compute. discriminate.
Qed.

(** C4, amended: let the stripped word end in [c] and the normalised verb be
    the syllable [v] followed by [rest].  When [v] is made of ㅇ and ㅣ the
    normalised verb is returned as it is, whatever [c] is.  Otherwise the
    verb, with the vowel fusion applied to [v], is returned behind (이) when
    [c] is no Hangul syllable, bare when [c] is an open syllable, and behind
    이 when [c] is a closed syllable. *)
Theorem C4_ida_prefix (word verb init rest : ustr) (c v : Z) :
  SFK.re_sub SFK.ENDING_BRACKET_PATTERN word = init ++ [c] ->
  SFK.normalize_verb verb = v :: rest ->
  is_syllable v ->
  (starts_with_i v = true -> SFK.Ida word verb = OK (v :: rest)) /\
  (starts_with_i v = false ->
   (~ is_syllable c ->
    SFK.Ida word verb
    = OK ([SFK.LPAREN; SFK.SYL_I; SFK.RPAREN] ++ fuse false v :: rest)) /\
   (is_syllable c -> coda c = PNone ->
    SFK.Ida word verb = OK (fuse true v :: rest)) /\
   (is_syllable c -> coda c <> PNone ->
    SFK.Ida word verb = OK ([SFK.SYL_I] ++ fuse false v :: rest))).
Proof.
  intros Hw Hn Hv. rewrite (Ida_outcome word verb init rest c v Hw Hn Hv).
  unfold copula. split; [intros ->; reflexivity|]. intros ->.
  split; [|split].
  - intros Hc. apply is_syllableb_false in Hc. now rewrite Hc.
  - intros Hc Hk. apply coda_absent_iff in Hk; [|assumption].
    apply is_syllableb_true in Hc. rewrite Hc, Hk. reflexivity.
  - intros Hc Hk.
    assert (Hk' : coda_index c <> 0)
      by (intros H0; apply Hk; now apply coda_absent_iff).
    apply is_syllableb_true in Hc. rewrite Hc.
    replace (coda_index c =? 0) with false by lia. reflexivity.
Qed.

(** 고라파덕 ends in the closed syllable 덕: 이다 after it is 이다. *)
Lemma C4_ida_prefix_witness :
  SFK.re_sub SFK.ENDING_BRACKET_PATTERN Words.golduck
  = [0xACE0; 0xB77C; 0xD30C] ++ [0xB355] /\
  SFK.normalize_verb Words.ida = [0xB2E4] /\
  is_syllable 0xB2E4 /\
  SFK.Ida Words.golduck Words.ida = OK [0xC774; 0xB2E4].
Proof.
  assert (Hv : is_syllable 0xB2E4) by (unfold is_syllable; lia).
  split; [reflexivity|]. split; [reflexivity|]. split; [exact Hv|].
  apply (proj2 (C4_ida_prefix Words.golduck Words.ida
                  [0xACE0; 0xB77C; 0xD30C] [] 0xB355 0xB2E4
                  eq_refl eq_refl Hv) eq_refl).
  - unfold is_syllable. lia.
  - vm_compute. discriminate.
Defined.

Section Fusion.

Lemma strip_syllable_end (init : ustr) (c : Z) :
  is_syllable c ->
  SFK.re_sub SFK.ENDING_BRACKET_PATTERN (init ++ [c]) = init ++ [c].
Proof.
  intros Hc. unfold is_syllable in Hc.
  apply strip_plain_end; unfold SFK.RPAREN, SFK.LF; lia.
Qed.

(** A verb that starts with 이 loses it, and the next character stays when
    it opens no bracket. *)
Lemma normalize_verb_i (x : Z) (rest : ustr) :
  x <> SFK.LPAREN ->
  SFK.normalize_verb (SFK.SYL_I :: x :: rest) = x :: rest_normalized rest.
Proof.
  intros Hx. unfold SFK.normalize_verb, SFK.re_sub, rest_normalized.
  cbn [SFK.sub_scan SFK.NORMALIZE_PATTERN andb].
  rewrite Z.eqb_refl.
  cbn [SFK.sub_scan SFK.NORMALIZE_PATTERN andb].
  replace (x =? SFK.LPAREN) with false by lia. cbn [andb].
  now destruct rest as [|a [|b r]].
Qed.

(** A verb that starts with neither 이 nor a bracket keeps its first
    character. *)
Lemma normalize_verb_keep (x : Z) (rest : ustr) :
  x <> SFK.SYL_I -> x <> SFK.LPAREN ->
  SFK.normalize_verb (x :: rest) = x :: rest_normalized rest.
Proof.
  intros Hi Hx. unfold SFK.normalize_verb, SFK.re_sub, rest_normalized.
  cbn [SFK.sub_scan SFK.NORMALIZE_PATTERN].
  replace (x =? SFK.SYL_I) with false by lia.
  replace (x =? SFK.LPAREN) with false by lia. cbn [andb].
  now destruct rest as [|a [|b r]].
Qed.

End Fusion.

(** C5: after a word that ends in an open syllable, a verb that begins with
    이어 or 이에 comes back beginning with 여 or 예; after a word that ends
    in a closed syllable, a verb that begins with 여 or 예 comes back
    beginning with 이어 or 이에, the 이 being the prefix and 어 or 에 the
    lengthened syllable.  In each case the rest of the verb follows as
    [normalize_verb] leaves it. *)
Theorem C5_vowel_fusion (word init rest : ustr) (c : Z) :
  word = init ++ [c] ->
  is_syllable c ->
  (coda c = PNone ->
   SFK.Ida word (0xC774 :: 0xC5B4 :: rest)
   = OK (0xC5EC :: rest_normalized rest) /\
   SFK.Ida word (0xC774 :: 0xC5D0 :: rest)
   = OK (0xC608 :: rest_normalized rest)) /\
  (coda c <> PNone ->
   SFK.Ida word (0xC5EC :: rest)
   = OK (0xC774 :: 0xC5B4 :: rest_normalized rest) /\
   SFK.Ida word (0xC608 :: rest)
   = OK (0xC774 :: 0xC5D0 :: rest_normalized rest)).
Proof.
  intros -> Hc.
  pose proof (strip_syllable_end init c Hc) as Hw.
  pose proof (proj2 (is_syllableb_true c) Hc) as Hb.
  assert (Hout : forall verb v,
             SFK.normalize_verb verb = v :: rest_normalized rest ->
             is_syllable v ->
             SFK.Ida (init ++ [c]) verb
             = OK (copula c v (rest_normalized rest)))
    by (intros verb v Hn Hv; now apply (Ida_outcome _ _ init _ c v)).
  split.
  - intros Hk. apply coda_absent_iff in Hk; [|assumption].
    split.
    + rewrite (Hout _ 0xC5B4);
        [ | apply (normalize_verb_i 0xC5B4); unfold SFK.LPAREN; lia
          | unfold is_syllable; lia ].
      unfold copula. rewrite Hb, Hk. reflexivity.
    + rewrite (Hout _ 0xC5D0);
        [ | apply (normalize_verb_i 0xC5D0); unfold SFK.LPAREN; lia
          | unfold is_syllable; lia ].
      unfold copula. rewrite Hb, Hk. reflexivity.
  - intros Hk.
    assert (Hk' : (coda_index c =? 0) = false).
    { apply Z.eqb_neq. intros H0. apply Hk. now apply coda_absent_iff. }
    split.
    + rewrite (Hout _ 0xC5EC);
        [ | apply normalize_verb_keep; unfold SFK.SYL_I, SFK.LPAREN; lia
          | unfold is_syllable; lia ].
      unfold copula. rewrite Hb, Hk'. reflexivity.
    + rewrite (Hout _ 0xC608);
        [ | apply normalize_verb_keep; unfold SFK.SYL_I, SFK.LPAREN; lia
          | unfold is_syllable; lia ].
      unfold copula. rewrite Hb, Hk'. reflexivity.
Qed.

(** 피카츄 with 이어요 gives 여요. *)
Lemma C5_vowel_fusion_witness :
  Words.pikachu = [0xD53C; 0xCE74] ++ [0xCE04] /\
  is_syllable 0xCE04 /\
  SFK.Ida Words.pikachu Words.ieoyo = OK Words.yeoyo.
Proof.
  assert (Hc : is_syllable 0xCE04) by (unfold is_syllable; lia).
  split; [reflexivity|]. split; [exact Hc|].
  exact (proj1 (proj1 (C5_vowel_fusion Words.pikachu [0xD53C; 0xCE74]
                         [0xC694] 0xCE04 eq_refl Hc) eq_refl)).
Defined.

(** ** The registry *)

Section Registry.

(** The inner loop adds exactly the forms it is given, all for [p]. *)
Lemma index_forms_lookup (p : SFK.Particle) (forms : list ustr)
  (m m' : gmap ustr SFK.Particle) :
  SFK.index_forms p forms m = OK m' ->
  forall (k : ustr) (q : SFK.Particle),
    m' !! k = Some q <-> m !! k = Some q \/ (k ∈ forms /\ q = p).
Proof.
  revert m. induction forms as [|f fs IH]; intros m H k q; simpl in H.
  - injection H as <-. split; [now left|].
    intros [Hm | [Hin _]]; [assumption|]. now apply elem_of_nil in Hin.
  - destruct (m !! f) eqn:Ef; [discriminate|].
    rewrite (IH _ H k q). rewrite elem_of_cons.
    destruct (decide (f = k)) as [->|Hne].
    + rewrite lookup_insert_eq, Ef. split.
      * intros [Hq | [Hin ->]]; [injection Hq as <-|]; right; auto.
      * intros [Hq | [_ ->]]; [discriminate|]. now left.
    + rewrite lookup_insert_ne by assumption. split.
      * intros [Hm | [Hin ->]]; [now left | right; auto].
      * intros [Hm | [[->|Hin] ->]];
          [now left | contradiction | right; auto].
Qed.

Lemma index_particles_lookup (ps : list SFK.Particle)
  (m m' : gmap ustr SFK.Particle) :
  SFK.index_particles ps m = OK m' ->
  forall (k : ustr) (q : SFK.Particle),
    m' !! k = Some q
    <-> m !! k = Some q \/ (q ∈ ps /\ k ∈ SFK.Particle_iter q).
Proof.
  revert m. induction ps as [|p ps IH]; intros m H k q;
    cbn [SFK.index_particles] in H.
  - injection H as <-. split; [now left|].
    intros [Hm | [Hin _]]; [assumption|]. now apply elem_of_nil in Hin.
  - destruct (SFK.index_forms p (SFK.Particle_iter p) m) as [m1|] eqn:E1;
      [|discriminate].
    cbn [bind] in H. rewrite (IH _ H k q).
    rewrite (index_forms_lookup _ _ _ _ E1 k q). rewrite elem_of_cons.
    split.
    + intros [[Hm | [Hin ->]] | [Hq Hin]]; auto.
    + intros [Hm | [[->|Hq] Hin]]; auto.
Qed.

(** The import of the module succeeds: no form is listed twice. *)
Lemma particle_index_built :
  SFK.index_particles SFK.PARTICLES ∅ = OK SFK._particle_index.
Proof.
  assert (Hok : match SFK.index_particles SFK.PARTICLES ∅ with
                | OK _ => True
                | Raise _ => False
                end) by (vm_compute; exact I).
  unfold SFK._particle_index.
  now destruct (SFK.index_particles SFK.PARTICLES ∅).
Qed.

End Registry.

(** C9, as stated, fails: the default forms are keys of the registry too.
    은(는) resolves to 은/는 and (으)로 to the directional particle. *)
Lemma C9_default_form_counterexample :
  SFK.default Words.eun_neun = [0xC740; 0x28; 0xB294; 0x29] /\
  SFK._particle_index !! ([0xC740; 0x28; 0xB294; 0x29] : ustr)
  = Some Words.eun_neun /\
  SFK.default SFK.Euro = [0x28; 0xC73C; 0x29; 0xB85C] /\
  SFK._particle_index !! ([0x28; 0xC73C; 0x29; 0xB85C] : ustr)
  = Some SFK.Euro.
Proof. repeat split; vm_compute; reflexivity. Qed.

(** C9, amended: the registry maps exactly the three strings a particle
    iterates over, its default form, [form1] and [form2], to the particle
    that owns them, for the particles of PARTICLES and for nothing else. *)
Theorem C9_registry_keys (k : ustr) (p : SFK.Particle) :
  SFK._particle_index !! k = Some p
  <-> p ∈ SFK.PARTICLES
      /\ k ∈ [SFK.default p; SFK.form1 p; SFK.form2 p].
Proof.
  rewrite (index_particles_lookup _ _ _ particle_index_built k p).
  rewrite lookup_empty. unfold SFK.Particle_iter.
  split; [intros [H|H]; [discriminate | exact H] | now right].
Qed.

(** ** The extension *)

(** C8, as stated, fails: a spec that names no particle and does not start,
    once normalised, with a Hangul syllable makes [Ida] raise.  The Latin
    spec abc raises ValueError; the spec (이) is empty once normalised and
    raises IndexError, and so does 이(이), which passes the test of the
    implicit form. *)
Lemma C8_unknown_spec_counterexample :
  (SFK._particle_index !! ([0x61; 0x62; 0x63] : ustr) = None /\
   SFK.ko (fun _ value => value) Words.pikachu [0x6B; 0x6F]
     [0x61; 0x62; 0x63] [0x7B; 0x7D] = Raise ValueError) /\
  (SFK._particle_index !! Words.bracketed_i = None /\
   SFK.ko (fun _ value => value) Words.pikachu [0x6B; 0x6F]
     Words.bracketed_i [0x7B; 0x7D] = Raise IndexError) /\
  (SFK._particle_index !! ([0xC774; 0x28; 0xC774; 0x29] : ustr) = None /\
   SFK.ko (fun _ value => value) Words.pikachu [] []
     [0xC774; 0x28; 0xC774; 0x29] = Raise IndexError).
Proof. repeat split; vm_compute; reflexivity. Qed.

(** C8, amended: let the spec name no particle and, once normalised, start
    with a Hangul syllable, and let the word not be empty once stripped.
    Then [Ida] fuses the spec as a verb onto the word and returns a string,
    and the extension returns the formatted word followed by that string:
    in the explicit form, and in the implicit form when the spec itself
    starts with a Hangul syllable. *)
Theorem C8_unknown_spec_is_fused
  (formatter_format : ustr -> ustr -> ustr)
  (value name option format init rest : ustr) (c v : Z) :
  SFK._particle_index !! option = None ->
  SFK.re_sub SFK.ENDING_BRACKET_PATTERN value = init ++ [c] ->
  SFK.normalize_verb option = v :: rest ->
  is_syllable v ->
  exists suffix : ustr,
    SFK.Ida value option = OK suffix /\
    (name <> [] ->
     SFK.ko formatter_format value name option format
     = OK (Some (formatter_format format value ++ suffix))) /\
    (forall (h : Z) (t ignored : ustr),
       option = h :: t -> is_syllable h ->
       SFK.ko formatter_format value [] ignored option
       = OK (Some (formatter_format [0x7B; 0x7D] value ++ suffix))).
Proof.
  intros Hidx Hw Hn Hv. exists (copula c v rest).
  pose proof (Ida_outcome value option init rest c v Hw Hn Hv) as HIda.
  split; [exact HIda|]. split.
  - intros Hname. unfold SFK.ko.
    destruct name as [|n0 name]; [contradiction|]. cbn [andb].
    rewrite Hidx, HIda. reflexivity.
  - intros h t ignored -> Hh. unfold SFK.ko. cbn [andb].
    unfold SFK.startswith.
    assert (Hhy : (h =? SFK.HYPHEN) = false)
      by (unfold is_syllable, SFK.HYPHEN in *; lia).
    rewrite Hhy, sfk_is_hangul_single.
    apply is_syllableb_true in Hh. rewrite Hh. cbn [negb].
    rewrite Hidx, HIda. reflexivity.
Qed.

(** The spec 다 names no particle; after 고라파덕 the extension answers
    고라파덕이다. *)
Lemma C8_unknown_spec_is_fused_witness :
  SFK._particle_index !! ([0xB2E4] : ustr) = None /\
  SFK.re_sub SFK.ENDING_BRACKET_PATTERN Words.golduck
  = [0xACE0; 0xB77C; 0xD30C] ++ [0xB355] /\
  SFK.normalize_verb [0xB2E4] = [0xB2E4] /\
  is_syllable 0xB2E4 /\
  exists suffix : ustr,
    SFK.Ida Words.golduck [0xB2E4] = OK suffix /\
    ([0x6B; 0x6F] <> [] ->
     SFK.ko (fun _ value => value) Words.golduck [0x6B; 0x6F] [0xB2E4]
       [0x7B; 0x7D]
     = OK (Some (Words.golduck ++ suffix))) /\
    (forall (h : Z) (t ignored : ustr),
       [0xB2E4] = h :: t -> is_syllable h ->
       SFK.ko (fun _ value => value) Words.golduck [] ignored [0xB2E4]
       = OK (Some (Words.golduck ++ suffix))).
Proof.
  assert (Hidx : SFK._particle_index !! ([0xB2E4] : ustr) = None)
    by (vm_compute; reflexivity).
  assert (Hv : is_syllable 0xB2E4) by (unfold is_syllable; lia).
  split; [exact Hidx|]. split; [reflexivity|]. split; [reflexivity|].
  split; [exact Hv|].
  exact (C8_unknown_spec_is_fused (fun _ value => value) Words.golduck
           [0x6B; 0x6F] [0xB2E4] [0x7B; 0x7D] [0xACE0; 0xB77C; 0xD30C] []
           0xB355 0xB2E4 Hidx eq_refl eq_refl Hv).
Defined.

(** * Further properties of the code *)

(** ** Tables, indices and offsets *)

Section TableFacts.

(** A member of a table without repetition has one index, which both
    [index] and indexing agree on. *)
Lemma member_index (l : list pyval) (x d : pyval) :
  NoDup l -> x ∈ l ->
  exists i, 0 <= i < Z.of_nat (length l) /\
            nth (Z.to_nat i) l d = x /\
            list_index l x = OK i /\
            getitem l i = OK x.
Proof.
  intros Hnd Hin. apply list_elem_of_In in Hin.
  destruct (In_nth l x d Hin) as (n & Hn & Hx).
  exists (Z.of_nat n).
  assert (Hi : 0 <= Z.of_nat n < Z.of_nat (length l)) by lia.
  rewrite Nat2Z.id. split; [exact Hi|]. split; [exact Hx|]. split.
  - rewrite <- Hx at 1. rewrite <- (Nat2Z.id n) at 1.
    now apply list_index_nth.
  - rewrite (getitem_nth l _ d Hi), Nat2Z.id. now f_equal.
Qed.

(** [index] fails, with ValueError, exactly on values that are not in the
    list. *)
Lemma index_from_not_in (l : list pyval) (x : pyval) (k : Z) :
  x ∉ l -> index_from x l k = Raise ValueError.
Proof.
  revert k. induction l as [|y l IH]; intros k Hx; [reflexivity|].
  simpl. apply not_elem_of_cons in Hx as [Hne Hx].
  rewrite pyval_eqb_neq by congruence. now apply IH.
Qed.

Lemma index_from_in (l : list pyval) (x : pyval) (k : Z) :
  x ∈ l -> exists i, index_from x l k = OK i.
Proof.
  revert k. induction l as [|y l IH]; intros k Hx.
  - now apply elem_of_nil in Hx.
  - simpl. destruct (pyval_eqb y x) eqn:E; [now exists k|].
    apply elem_of_cons in Hx as [->|Hx].
    + now rewrite pyval_eqb_refl in E.
    + now apply IH.
Qed.

(** The offset built from three indices has these indices. *)
Lemma indices_of_offset (i j k : Z) :
  0 <= i < 19 -> 0 <= j < 21 -> 0 <= k < 28 ->
  is_syllable (0xAC00 + ((i * 21 + j) * 28 + k)) /\
  onset_index (0xAC00 + ((i * 21 + j) * 28 + k)) = i /\
  vowel_index (0xAC00 + ((i * 21 + j) * 28 + k)) = j /\
  coda_index (0xAC00 + ((i * 21 + j) * 28 + k)) = k.
Proof.
  intros Hi Hj Hk.
  unfold is_syllable, onset_index, vowel_index, coda_index.
  replace (44032 + ((i * 21 + j) * 28 + k) - 44032)
    with ((i * 21 + j) * 28 + k) by lia.
  assert (Hq : ((i * 21 + j) * 28 + k) / 28 = i * 21 + j)
    by (symmetry; apply (Z.div_unique _ 28 _ k); lia).
  split; [lia|]. split; [|split].
  - symmetry. apply (Z.div_unique _ (21 * 28) _ (j * 28 + k)); lia.
  - rewrite Hq. symmetry. apply (Z.mod_unique _ 21 i j); lia.
  - symmetry. apply (Z.mod_unique _ 28 (i * 21 + j) k); lia.
Qed.

End TableFacts.

(** ** More on the codec *)

Section CodecMore.

Lemma hangul_split_phonemes_flags (c : Z) (onset nucleus coda : bool) :
  is_syllable c ->
  Hangul.split_phonemes [c] onset nucleus coda
  = OK (if onset then Syllable.onset c else PNone,
        if nucleus then vowel c else PNone,
        if coda then absent_as_empty (Syllable.coda c) else PNone).
Proof.
  intros Hc. destruct (syllable_indices c Hc) as (Ho & Hv & Hk & _).
  unfold Hangul.split_phonemes. rewrite hangul_is_hangul_single.
  apply is_syllableb_true in Hc. unfold is_syllableb in Hc. rewrite Hc.
  cbn [negb].
  change Hangul.NUM_NUCLEUSES with 21. change Hangul.NUM_CODAS with 28.
  unfold Hangul.FIRST_HANGUL_OFFSET.
  fold (onset_index c) (vowel_index c) (coda_index c).
  rewrite (getitem_nth Hangul.ONSETS _ PNone) by exact Ho.
  rewrite (getitem_nth Hangul.NUCLEUSES _ PNone) by exact Hv.
  rewrite (getitem_nth Hangul.CODAS _ (absent_as_empty PNone)) by exact Hk.
  unfold Syllable.onset, vowel, Syllable.coda.
  change Hangul.CODAS with (map absent_as_empty SFK.FINALS).
  rewrite map_nth. now destruct onset, nucleus, coda.
Qed.

Lemma not_single_syllable (letter : ustr) :
  (~ exists ch, letter = [ch] /\ is_syllable ch) ->
  match letter with
  | [c] => is_syllableb c = false
  | _ => True
  end.
Proof.
  intros H. destruct letter as [|c [|d l]]; try exact I.
  apply is_syllableb_false. intros Hc. apply H. now exists c.
Qed.

End CodecMore.

(** X1: both copies of [split_phonemes] raise ValueError on every string
    that is not exactly one Hangul syllable, whatever fields are asked for,
    and return a tuple on every string that is one. *)
Theorem X1_split_phonemes_rejects (letter : ustr) (f0 f1 f2 : bool) :
  ((~ exists ch, letter = [ch] /\ is_syllable ch) ->
   SFK.split_phonemes letter f0 f1 f2 = Raise ValueError /\
   Hangul.split_phonemes letter f0 f1 f2 = Raise ValueError) /\
  (forall ch, letter = [ch] -> is_syllable ch ->
   (exists t, SFK.split_phonemes letter f0 f1 f2 = OK t) /\
   (exists t, Hangul.split_phonemes letter f0 f1 f2 = OK t)).
Proof.
  split.
  - intros H. apply not_single_syllable in H.
    destruct letter as [|c [|d l]]; try (split; reflexivity).
    unfold SFK.split_phonemes, Hangul.split_phonemes.
    rewrite sfk_is_hangul_single, hangul_is_hangul_single.
    unfold is_syllableb in H. unfold is_syllableb. rewrite H.
    split; reflexivity.
  - intros ch -> Hc. split.
    + rewrite sfk_split_phonemes_syllable by assumption. eauto.
    + rewrite hangul_split_phonemes_flags by assumption. eauto.
Qed.

(** X2: in hangul.py, joining an onset, a nucleus and a coda taken from the
    three tables gives one Hangul syllable, and splitting that syllable
    gives the three phonemes back. *)
Theorem X2_hangul_split_join (onset nucleus coda : pyval) :
  onset ∈ Hangul.ONSETS -> nucleus ∈ Hangul.NUCLEUSES ->
  coda ∈ Hangul.CODAS ->
  exists ch,
    is_syllable ch /\
    Hangul.join_phonemes (Positional [onset; nucleus; coda]) = OK [ch] /\
    Hangul.split_phonemes [ch] true true true = OK (onset, nucleus, coda).
Proof.
  intros Ho Hn Hc.
  destruct (member_index _ _ PNone hangul_ONSETS_NoDup Ho)
    as (i & Hi & Hxi & Hli & _).
  destruct (member_index _ _ PNone hangul_NUCLEUSES_NoDup Hn)
    as (j & Hj & Hxj & Hlj & _).
  destruct (member_index _ _ (PStr []) hangul_CODAS_NoDup Hc)
    as (k & Hk & Hxk & Hlk & _).
  change (Z.of_nat (length Hangul.ONSETS)) with 19 in Hi.
  change (Z.of_nat (length Hangul.NUCLEUSES)) with 21 in Hj.
  change (Z.of_nat (length Hangul.CODAS)) with 28 in Hk.
  destruct (indices_of_offset i j k Hi Hj Hk) as (Hs & Hoi & Hvi & Hci).
  exists (0xAC00 + ((i * 21 + j) * 28 + k)).
  split; [exact Hs|]. split.
  - unfold Hangul.join_phonemes. rewrite unpack_args_three.
    cbn [bind length Nat.eqb]. rewrite Hli, Hlj, Hlk. cbn [bind].
    change Hangul.NUM_NUCLEUSES with 21. change Hangul.NUM_CODAS with 28.
    unfold Hangul.FIRST_HANGUL_OFFSET, unichr. unfold is_syllable in Hs.
    replace ((0 <=? 44032 + ((i * 21 + j) * 28 + k))
             && (44032 + ((i * 21 + j) * 28 + k) <=? 1114111))
      with true by lia.
    reflexivity.
  - rewrite hangul_split_phonemes_flags by exact Hs.
    unfold Syllable.onset, vowel, Syllable.coda.
    rewrite Hoi, Hvi, Hci.
    change SFK.INITIALS with Hangul.ONSETS.
    change SFK.VOWELS with Hangul.NUCLEUSES.
    rewrite <- (map_nth absent_as_empty).
    change (map absent_as_empty SFK.FINALS) with Hangul.CODAS.
    cbn [absent_as_empty]. now rewrite Hxi, Hxj, Hxk.
Qed.

(** ㅇ, ㅣ and an empty coda make 이, which splits into them again. *)
Lemma X2_hangul_split_join_witness :
  chr 0x3147 ∈ Hangul.ONSETS /\ chr 0x3163 ∈ Hangul.NUCLEUSES /\
  PStr [] ∈ Hangul.CODAS /\
  exists ch,
    is_syllable ch /\
    Hangul.join_phonemes (Positional [chr 0x3147; chr 0x3163; PStr []])
    = OK [ch] /\
    Hangul.split_phonemes [ch] true true true
    = OK (chr 0x3147, chr 0x3163, PStr []).
Proof.
  assert (H1 : chr 0x3147 ∈ Hangul.ONSETS)
    by (apply (bool_decide_unpack _); vm_compute; reflexivity).
  assert (H2 : chr 0x3163 ∈ Hangul.NUCLEUSES)
    by (apply (bool_decide_unpack _); vm_compute; reflexivity).
  assert (H3 : PStr [] ∈ Hangul.CODAS)
    by (apply (bool_decide_unpack _); vm_compute; reflexivity).
  split; [exact H1|]. split; [exact H2|]. split; [exact H3|].
  exact (X2_hangul_split_join _ _ _ H1 H2 H3).
Defined.

Section SFKJoin.

Lemma sfk_join_indices (i j k : Z) (a : call_args) :
  unpack_args a
  = OK [nth (Z.to_nat i) SFK.INITIALS PNone;
        nth (Z.to_nat j) SFK.VOWELS PNone;
        nth (Z.to_nat k) SFK.FINALS PNone] ->
  0 <= i < 19 -> 0 <= j < 21 -> 0 <= k < 28 ->
  SFK.join_phonemes a = OK [0xAC00 + ((i * 21 + j) * 28 + k)].
Proof.
  intros Ha Hi Hj Hk. unfold SFK.join_phonemes. rewrite Ha.
  cbn [bind length Nat.eqb].
  rewrite (list_index_nth _ _ _ sfk_INITIALS_NoDup) by (cbn; lia).
  rewrite (list_index_nth _ _ _ sfk_VOWELS_NoDup) by (cbn; lia).
  rewrite (list_index_nth _ _ _ sfk_FINALS_NoDup) by (cbn; lia).
  cbn [bind].
  change SFK.NUM_VOWELS with 21. change SFK.NUM_FINALS with 28.
  unfold SFK.FIRST_HANGUL_OFFSET, unichr.
  replace ((0 <=? 44032 + ((i * 21 + j) * 28 + k))
           && (44032 + ((i * 21 + j) * 28 + k) <=? 1114111))
    with true by lia.
  reflexivity.
Qed.

End SFKJoin.

(** X3: the codec of smartformatkorean.py is a bijection as well.  Joining
    the tuple that [split_phonemes] returns for a syllable gives the
    syllable back, and splitting the syllable joined from an initial, a
    vowel and a final of the tables gives the three back; the absent final
    is [None] here. *)
Theorem X3_sfk_codec_roundtrips :
  (forall c, is_syllable c ->
     (t <- SFK.split_phonemes [c] true true true ;;
      let '(initial, vowel, final) := t in
      SFK.join_phonemes (Packed [initial; vowel; final])) = OK [c]) /\
  (forall initial vowel final,
     initial ∈ SFK.INITIALS -> vowel ∈ SFK.VOWELS -> final ∈ SFK.FINALS ->
     exists ch,
       is_syllable ch /\
       SFK.join_phonemes (Positional [initial; vowel; final]) = OK [ch] /\
       SFK.split_phonemes [ch] true true true
       = OK (initial, vowel, final)).
Proof.
  split.
  - intros c Hc. destruct (syllable_indices c Hc) as (Ho & Hv & Hk & Hsum).
    rewrite sfk_split_phonemes_syllable by assumption. cbn [bind].
    unfold onset, vowel, coda.
    rewrite (sfk_join_indices (onset_index c) (vowel_index c)
               (coda_index c)) by (reflexivity || assumption).
    now rewrite Hsum.
  - intros initial vowel final Hi Hv Hf.
    destruct (member_index _ _ PNone sfk_INITIALS_NoDup Hi)
      as (i & Hbi & Hxi & _).
    destruct (member_index _ _ PNone sfk_VOWELS_NoDup Hv)
      as (j & Hbj & Hxj & _).
    destruct (member_index _ _ PNone sfk_FINALS_NoDup Hf)
      as (k & Hbk & Hxk & _).
    change (Z.of_nat (length SFK.INITIALS)) with 19 in Hbi.
    change (Z.of_nat (length SFK.VOWELS)) with 21 in Hbj.
    change (Z.of_nat (length SFK.FINALS)) with 28 in Hbk.
    destruct (indices_of_offset i j k Hbi Hbj Hbk)
      as (Hs & Hoi & Hvi & Hci).
    exists (0xAC00 + ((i * 21 + j) * 28 + k)).
    split; [exact Hs|]. split.
    + apply sfk_join_indices; try assumption.
      rewrite unpack_args_three. now rewrite Hxi, Hxj, Hxk.
    + rewrite sfk_split_phonemes_syllable by exact Hs.
      unfold onset, Syllable.vowel, coda. rewrite Hoi, Hvi, Hci.
      now rewrite Hxi, Hxj, Hxk.
Qed.

Section JoinErrors.

Lemma list_index_cases (l : list pyval) (x : pyval) :
  (x ∈ l /\ exists i, list_index l x = OK i)
  \/ ((x ∉ l) /\ list_index l x = Raise ValueError).
Proof.
  destruct (decide (x ∈ l)) as [Hin|Hout].
  - left. split; [assumption|]. now apply index_from_in.
  - right. split; [assumption|]. now apply index_from_not_in.
Qed.

(** With two or three phonemes, [join_phonemes] of hangul.py is the three
    look-ups followed by [unichr]; the coda of the two-phoneme call is the
    empty string. *)
Lemma hangul_join_unfold (a : call_args) (o n c : pyval) :
  unpack_args a = OK [o; n; c]
  \/ (unpack_args a = OK [o; n] /\ c = PStr []) ->
  Hangul.join_phonemes a
  = (i <- list_index Hangul.ONSETS o ;;
     j <- list_index Hangul.NUCLEUSES n ;;
     k <- list_index Hangul.CODAS c ;;
     unichr (0xAC00 + ((i * 21 + j) * 28 + k))).
Proof.
  intros [Ha | [Ha ->]]; unfold Hangul.join_phonemes; rewrite Ha;
    reflexivity.
Qed.

Lemma sfk_join_unfold (a : call_args) (o n c : pyval) :
  unpack_args a = OK [o; n; c]
  \/ (unpack_args a = OK [o; n] /\ c = PNone) ->
  SFK.join_phonemes a
  = (i <- list_index SFK.INITIALS o ;;
     j <- list_index SFK.VOWELS n ;;
     k <- list_index SFK.FINALS c ;;
     unichr (0xAC00 + ((i * 21 + j) * 28 + k))).
Proof.
  intros [Ha | [Ha ->]]; unfold SFK.join_phonemes; rewrite Ha;
    reflexivity.
Qed.

(** The three look-ups and [unichr] on members of three tables of 19, 21
    and 28 entries without repetition. *)
Lemma lookups_members (t0 t1 t2 : list pyval) (o n c : pyval) :
  NoDup t0 -> NoDup t1 -> NoDup t2 ->
  Z.of_nat (length t0) = 19 -> Z.of_nat (length t1) = 21 ->
  Z.of_nat (length t2) = 28 ->
  o ∈ t0 -> n ∈ t1 -> c ∈ t2 ->
  exists i j k,
    (0 <= i < 19 /\ 0 <= j < 21 /\ 0 <= k < 28) /\
    (getitem t0 i = OK o /\ getitem t1 j = OK n /\ getitem t2 k = OK c) /\
    (i <- list_index t0 o ;;
     j <- list_index t1 n ;;
     k <- list_index t2 c ;;
     unichr (0xAC00 + ((i * 21 + j) * 28 + k)))
    = OK [0xAC00 + ((i * 21 + j) * 28 + k)].
Proof.
  intros N0 N1 N2 L0 L1 L2 Ho Hn Hc.
  destruct (member_index _ _ PNone N0 Ho) as (i & Hi & _ & Hli & Hgi).
  destruct (member_index _ _ PNone N1 Hn) as (j & Hj & _ & Hlj & Hgj).
  destruct (member_index _ _ PNone N2 Hc) as (k & Hk & _ & Hlk & Hgk).
  rewrite L0 in Hi. rewrite L1 in Hj. rewrite L2 in Hk.
  exists i, j, k. split; [auto|]. split; [auto|].
  rewrite Hli, Hlj, Hlk. cbn [bind]. unfold unichr.
  replace ((0 <=? 44032 + ((i * 21 + j) * 28 + k))
           && (44032 + ((i * 21 + j) * 28 + k) <=? 1114111))
    with true by lia.
  reflexivity.
Qed.

(** The look-ups raise ValueError as soon as one value is in no table. *)
Lemma lookups_outsider (t0 t1 t2 : list pyval) (o n c : pyval) :
  o ∉ t0 \/ n ∉ t1 \/ c ∉ t2 ->
  (i <- list_index t0 o ;;
   j <- list_index t1 n ;;
   k <- list_index t2 c ;;
   unichr (0xAC00 + ((i * 21 + j) * 28 + k))) = Raise ValueError.
Proof.
  intros H.
  destruct (list_index_cases t0 o) as [[Ho [i ->]] | [Ho ->]];
    [|reflexivity].
  destruct (list_index_cases t1 n) as [[Hn [j ->]] | [Hn ->]];
    [|reflexivity].
  destruct (list_index_cases t2 c) as [[Hc [k ->]] | [Hc ->]];
    [|reflexivity].
  destruct H as [H | [H | H]]; contradiction.
Qed.

End JoinErrors.

(** X4: [join_phonemes] of hangul.py, called with one tuple.  It raises
    TypeError exactly when the tuple has neither two nor three items; on
    three items it raises ValueError exactly when one of them is not in its
    table, and otherwise returns a string. *)
Theorem X4_hangul_join_errors (t : list pyval) :
  (Hangul.join_phonemes (Packed t) = Raise TypeError
   <-> length t <> 2%nat /\ length t <> 3%nat) /\
  (forall o n c, t = [o; n; c] ->
     (Hangul.join_phonemes (Packed t) = Raise ValueError
      <-> o ∉ Hangul.ONSETS \/ n ∉ Hangul.NUCLEUSES \/ c ∉ Hangul.CODAS)
     /\ (Hangul.join_phonemes (Packed t) = Raise ValueError
         \/ exists s, Hangul.join_phonemes (Packed t) = OK s)).
Proof.
  assert (Hthree : forall a o n c,
             unpack_args a = OK [o; n; c]
             \/ (unpack_args a = OK [o; n] /\ c = PStr []) ->
             (o ∈ Hangul.ONSETS /\ n ∈ Hangul.NUCLEUSES
              /\ c ∈ Hangul.CODAS
              /\ exists s, Hangul.join_phonemes a = OK s)
             \/ ((o ∉ Hangul.ONSETS \/ n ∉ Hangul.NUCLEUSES
                  \/ c ∉ Hangul.CODAS)
                 /\ Hangul.join_phonemes a = Raise ValueError)).
  { intros a o n c Ha. rewrite (hangul_join_unfold a o n c Ha).
    destruct (decide (o ∈ Hangul.ONSETS)) as [Ho|Ho];
      [|right; split; [auto | apply lookups_outsider; auto]].
    destruct (decide (n ∈ Hangul.NUCLEUSES)) as [Hn|Hn];
      [|right; split; [auto | apply lookups_outsider; auto]].
    destruct (decide (c ∈ Hangul.CODAS)) as [Hc|Hc];
      [|right; split; [auto | apply lookups_outsider; auto]].
    left. repeat (split; [assumption|]).
    destruct (lookups_members _ _ _ o n c hangul_ONSETS_NoDup
                hangul_NUCLEUSES_NoDup hangul_CODAS_NoDup
                eq_refl eq_refl eq_refl Ho Hn Hc)
      as (i & j & k & _ & _ & ->).
    eauto. }
  split.
  - destruct t as [|a [|b [|c [|d t]]]]; cbn [length].
    + split; [intros _; split; discriminate | reflexivity].
    + split; [intros _; split; discriminate | reflexivity].
    + split; [|intros [H _]; contradiction].
      intros H. exfalso.
      destruct (Hthree (Packed [a; b]) a b (PStr []))
        as [(_ & _ & _ & s & Hs) | [_ Hs]];
        [right; auto | | ]; rewrite Hs in H; discriminate.
    + split; [|intros [_ H]; contradiction].
      intros H. exfalso.
      destruct (Hthree (Packed [a; b; c]) a b c)
        as [(_ & _ & _ & s & Hs) | [_ Hs]];
        [left; reflexivity | | ]; rewrite Hs in H; discriminate.
    + split; [intros _; split; discriminate | reflexivity].
  - intros o n c ->.
    destruct (Hthree (Packed [o; n; c]) o n c)
      as [(Ho & Hn & Hc & s & Hs) | [Hout Hs]]; [left; reflexivity | | ].
    + rewrite Hs. split; [|right; eauto]. split; [discriminate|].
      intros [H | [H | H]]; contradiction.
    + rewrite Hs. split; [|now left]. split; auto.
Qed.

(** X5: called with an onset and a nucleus only, [join_phonemes] gives the
    open syllable: in hangul.py it splits into the two phonemes and the
    empty string, in smartformatkorean.py into the two phonemes and
    [None]. *)
Theorem X5_join_two_phonemes (onset nucleus : pyval) :
  onset ∈ Hangul.ONSETS -> nucleus ∈ Hangul.NUCLEUSES ->
  exists ch,
    is_syllable ch /\ coda_index ch = 0 /\
    Hangul.join_phonemes (Positional [onset; nucleus]) = OK [ch] /\
    Hangul.split_phonemes [ch] true true true
    = OK (onset, nucleus, PStr []) /\
    SFK.join_phonemes (Positional [onset; nucleus]) = OK [ch] /\
    SFK.split_phonemes [ch] true true true = OK (onset, nucleus, PNone).
Proof.
  intros Ho Hn.
  assert (Hu : unpack_args (Positional [onset; nucleus])
               = OK [onset; nucleus]) by now destruct onset.
  assert (Hc : PNone ∈ SFK.FINALS) by (left).
  destruct (lookups_members SFK.INITIALS SFK.VOWELS SFK.FINALS
              onset nucleus PNone sfk_INITIALS_NoDup sfk_VOWELS_NoDup
              sfk_FINALS_NoDup eq_refl eq_refl eq_refl Ho Hn Hc)
    as (i & j & k & (Hi & Hj & Hk) & (Hgi & Hgj & Hgk) & Hjoin).
  assert (Hk0 : k = 0).
  { destruct (member_index _ _ PNone sfk_FINALS_NoDup Hc)
      as (k' & _ & _ & Hl' & _).
    assert (Hl0 : list_index SFK.FINALS PNone = OK 0) by reflexivity.
    destruct (list_index_getitem SFK.FINALS k sfk_FINALS_NoDup)
      as (x & Hx & Hlx); [exact Hk|].
    rewrite Hgk in Hx. injection Hx as <-. congruence. }
  subst k.
  destruct (indices_of_offset i j 0 Hi Hj Hk) as (Hs & Hoi & Hvi & Hci).
  assert (Hon : Syllable.onset (0xAC00 + ((i * 21 + j) * 28 + 0)) = onset).
  { unfold Syllable.onset. rewrite Hoi.
    rewrite (getitem_nth _ _ PNone) in Hgi by exact Hi. congruence. }
  assert (Hvo : vowel (0xAC00 + ((i * 21 + j) * 28 + 0)) = nucleus).
  { unfold vowel. rewrite Hvi.
    rewrite (getitem_nth _ _ PNone) in Hgj by exact Hj. congruence. }
  assert (Hco : coda (0xAC00 + ((i * 21 + j) * 28 + 0)) = PNone).
  { unfold coda. now rewrite Hci. }
  exists (0xAC00 + ((i * 21 + j) * 28 + 0)).
  split; [exact Hs|]. split; [exact Hci|]. split; [|split; [|split]].
  - rewrite (hangul_join_unfold _ onset nucleus (PStr []))
      by (right; auto).
    assert (Hl : list_index Hangul.CODAS (PStr []) = OK 0) by reflexivity.
    rewrite Hl.
    change Hangul.ONSETS with SFK.INITIALS.
    change Hangul.NUCLEUSES with SFK.VOWELS.
    assert (Hl0 : list_index SFK.FINALS PNone = OK 0) by reflexivity.
    rewrite Hl0 in Hjoin. exact Hjoin.
  - rewrite hangul_split_phonemes_flags by exact Hs.
    now rewrite Hon, Hvo, Hco.
  - rewrite (sfk_join_unfold _ onset nucleus PNone) by (right; auto).
    exact Hjoin.
  - rewrite sfk_split_phonemes_syllable by exact Hs.
    now rewrite Hon, Hvo, Hco.
Qed.

(** ㅎ and ㅏ make 하. *)
Lemma X5_join_two_phonemes_witness :
  chr 0x314E ∈ Hangul.ONSETS /\ chr 0x314F ∈ Hangul.NUCLEUSES /\
  exists ch,
    is_syllable ch /\ coda_index ch = 0 /\
    Hangul.join_phonemes (Positional [chr 0x314E; chr 0x314F]) = OK [ch] /\
    Hangul.split_phonemes [ch] true true true
    = OK (chr 0x314E, chr 0x314F, PStr []) /\
    SFK.join_phonemes (Positional [chr 0x314E; chr 0x314F]) = OK [ch] /\
    SFK.split_phonemes [ch] true true true
    = OK (chr 0x314E, chr 0x314F, PNone).
Proof.
  assert (H1 : chr 0x314E ∈ Hangul.ONSETS)
    by (apply (bool_decide_unpack _); vm_compute; reflexivity).
  assert (H2 : chr 0x314F ∈ Hangul.NUCLEUSES)
    by (apply (bool_decide_unpack _); vm_compute; reflexivity).
  split; [exact H1|]. split; [exact H2|].
  exact (X5_join_two_phonemes _ _ H1 H2).
Defined.

(** X6: [is_hangul] compares strings, not characters.  It holds of a string
    exactly when the string starts with a code point from 가 up to, but not
    including, 힣, whatever follows, or is 힣 alone; the empty string is
    rejected.  The two copies are the same function. *)
Theorem X6_is_hangul_strings (s : ustr) :
  (SFK.is_hangul s = true
   <-> exists c rest, s = c :: rest
                      /\ (0xAC00 <= c < 0xD7A3 \/ (c = 0xD7A3 /\ rest = [])))
  /\ Hangul.is_hangul s = SFK.is_hangul s.
Proof.
  split; [|reflexivity].
  unfold SFK.is_hangul. destruct s as [|c rest].
  - split; [discriminate | intros (c & rest & H & _); discriminate].
  - cbn [ustr_le]. split.
    + intros H. exists c, rest. split; [reflexivity|].
      destruct (44032 <? c) eqn:E1; [|destruct (44032 =? c) eqn:E2];
        try discriminate;
        (destruct (c <? 55203) eqn:E3; [left; lia|];
         destruct (c =? 55203) eqn:E4; [|now rewrite andb_false_r in H];
         right; split; [lia|]; destruct rest; [reflexivity|];
         now rewrite andb_false_r in H).
    + intros (c' & rest' & Heq & H). injection Heq as <- <-.
      destruct H as [H | [-> ->]]; [|reflexivity].
      replace (c <? 55203) with true by lia. rewrite andb_true_r.
      destruct (44032 <? c) eqn:E1; [reflexivity|].
      replace (44032 =? c) with true by lia. reflexivity.
Qed.

(** X7: asking [split_phonemes] for some of the fields only changes no
    field that is asked for and raises in the same cases: the answer is the
    full answer with the other fields set to [None].  In particular
    [pick_final] is the final of the full split. *)
Theorem X7_split_phonemes_fields (letter : ustr) (f0 f1 f2 : bool) :
  SFK.split_phonemes letter f0 f1 f2
  = (t <- SFK.split_phonemes letter true true true ;;
     OK (if f0 then fst (fst t) else PNone,
         if f1 then snd (fst t) else PNone,
         if f2 then snd t else PNone))
  /\ SFK.pick_final letter
     = (t <- SFK.split_phonemes letter true true true ;; OK (snd t)).
Proof.
  assert (H : forall g0 g1 g2,
             SFK.split_phonemes letter g0 g1 g2
             = (t <- SFK.split_phonemes letter true true true ;;
                OK (if g0 then fst (fst t) else PNone,
                    if g1 then snd (fst t) else PNone,
                    if g2 then snd t else PNone))).
  { intros g0 g1 g2. destruct letter as [|c [|d l]]; try reflexivity.
    destruct (is_syllableb c) eqn:E.
    - apply is_syllableb_true in E.
      now rewrite !sfk_split_phonemes_syllable by assumption.
    - apply is_syllableb_false in E.
      now rewrite !sfk_split_phonemes_not_syllable by assumption. }
  split; [apply H|].
  unfold SFK.pick_final. rewrite (H false false true).
  now destruct (SFK.split_phonemes letter true true true).
Qed.

(** ** More on particle selection *)

Section SelectionMore.

Lemma list_last_cases {A} (l : list A) :
  l = [] \/ exists init c, l = init ++ [c].
Proof.
  destruct l as [|a l]; [now left|]. right.
  destruct (exists_last (l := a :: l)) as (init & c & H); [discriminate|].
  now exists init, c.
Qed.

Lemma Particle_call_empty (p : SFK.Particle) (word : ustr) :
  SFK.re_sub SFK.ENDING_BRACKET_PATTERN word = [] ->
  SFK.Particle_call p word = Raise IndexError.
Proof. intros Hw. unfold SFK.Particle_call. now rewrite Hw. Qed.

Lemma allomorph_forms (p : SFK.Particle) (final : pyval) :
  SFK.allomorph p final = SFK.form1 p \/ SFK.allomorph p final = SFK.form2 p.
Proof.
  unfold SFK.allomorph. destruct (SFK.cls p).
  - destruct (is_none final); auto.
  - destruct (is_none final || pyval_eqb final SFK.RIEUL); auto.
Qed.

End SelectionMore.

(** X8: a particle, regular or directional, raises IndexError exactly when
    the word is empty once its trailing bracket group is stripped, raises
    nothing else, and otherwise returns its default form, [form1] or
    [form2]. *)
Theorem X8_particle_call_outcomes (p : SFK.Particle) (word : ustr) :
  (SFK.re_sub SFK.ENDING_BRACKET_PATTERN word = [] ->
   SFK.Particle_call p word = Raise IndexError) /\
  (SFK.re_sub SFK.ENDING_BRACKET_PATTERN word <> [] ->
   SFK.Particle_call p word = OK (SFK.default p)
   \/ SFK.Particle_call p word = OK (SFK.form1 p)
   \/ SFK.Particle_call p word = OK (SFK.form2 p)).
Proof.
  split; [apply Particle_call_empty|]. intros Hne.
  destruct (list_last_cases (SFK.re_sub SFK.ENDING_BRACKET_PATTERN word))
    as [H | (init & c & H)]; [contradiction|].
  rewrite (Particle_call_stripped p word init c H).
  destruct (is_syllableb c); [|now left].
  destruct (allomorph_forms p (coda c)) as [-> | ->]; auto.
Qed.

(** X9: the directional particle and a regular particle with the same three
    forms select differently exactly on the words whose last character,
    after stripping, is a syllable with the coda ㄹ. *)
Theorem X9_euro_differs_on_rieul (word : ustr) :
  SFK.Particle_call SFK.Euro word
  <> SFK.Particle_call
       (SFK.Particle_init (SFK.form1 SFK.Euro) (SFK.form2 SFK.Euro)
          (Some (SFK.default SFK.Euro))) word
  <-> exists init c,
        SFK.re_sub SFK.ENDING_BRACKET_PATTERN word = init ++ [c]
        /\ is_syllable c /\ coda c = SFK.RIEUL.
Proof.
  destruct (list_last_cases (SFK.re_sub SFK.ENDING_BRACKET_PATTERN word))
    as [H | (init & c & H)].
  - rewrite !Particle_call_empty by assumption. split; [congruence|].
    intros (init & c & H' & _). rewrite H in H'. now destruct init.
  - rewrite !(Particle_call_stripped _ word init c H).
    destruct (is_syllableb c) eqn:E.
    + apply is_syllableb_true in E.
      unfold SFK.allomorph. cbn [SFK.cls SFK.Euro SFK.Particle_init
                                   SFK.form1 SFK.form2].
      destruct (pyval_eqb (coda c) SFK.RIEUL) eqn:Er.
      * apply pyval_eqb_eq in Er. rewrite Er. cbn [is_none orb].
        split; [|intros _; discriminate].
        intros _. now exists init, c.
      * rewrite orb_false_r. split; [congruence|].
        intros (init' & c' & H' & _ & Hr). rewrite H in H'.
        apply app_inj_tail in H' as [_ <-].
        rewrite Hr, pyval_eqb_refl in Er. discriminate.
    + split; [intros Hne; exfalso; apply Hne; reflexivity|].
      intros (init' & c' & H' & Hs & _). rewrite H in H'.
      apply app_inj_tail in H' as [_ <-].
      apply is_syllableb_true in Hs. congruence.
Qed.

(** X10: selection and copula fusion look at the last character only.  A
    word that ends in neither a closing bracket nor a line feed gets the
    same answer as its last character alone. *)
Theorem X10_only_last_character
  (p : SFK.Particle) (init verb : ustr) (c : Z) :
  c <> SFK.RPAREN -> c <> SFK.LF ->
  SFK.Particle_call p (init ++ [c]) = SFK.Particle_call p [c] /\
  SFK.Ida (init ++ [c]) verb = SFK.Ida [c] verb.
Proof.
  intros Hr Hl.
  assert (H1 : SFK.re_sub SFK.ENDING_BRACKET_PATTERN (init ++ [c])
               = init ++ [c]) by now apply strip_plain_end.
  assert (H2 : SFK.re_sub SFK.ENDING_BRACKET_PATTERN [c] = [] ++ [c])
    by now apply (strip_plain_end []).
  split.
  - now rewrite (Particle_call_stripped p _ init c H1),
                (Particle_call_stripped p _ [] c H2).
  - unfold SFK.Ida. rewrite H1, H2. unfold str_getitem at 1 3.
    now rewrite !getitem_last.
Qed.

(** 고라파덕 and 덕 take the same form of 은/는 and the same copula. *)
Lemma X10_only_last_character_witness :
  0xB355 <> SFK.RPAREN /\ 0xB355 <> SFK.LF /\
  SFK.Particle_call Words.eun_neun ([0xACE0; 0xB77C; 0xD30C] ++ [0xB355])
  = SFK.Particle_call Words.eun_neun [0xB355] /\
  SFK.Ida ([0xACE0; 0xB77C; 0xD30C] ++ [0xB355]) Words.ida
  = SFK.Ida [0xB355] Words.ida.
Proof.
  assert (H1 : 0xB355 <> SFK.RPAREN) by (unfold SFK.RPAREN; lia).
  assert (H2 : 0xB355 <> SFK.LF) by (unfold SFK.LF; lia).
  split; [exact H1|]. split; [exact H2|].
  exact (X10_only_last_character Words.eun_neun [0xACE0; 0xB77C; 0xD30C]
           Words.ida 0xB355 H1 H2).
Defined.

(** ** More on the registry *)

Section RegistryMore.

Lemma index_forms_cases (p : SFK.Particle) (fs : list ustr)
  (m : gmap ustr SFK.Particle) :
  ((NoDup fs /\ forall f : ustr, f ∈ fs -> m !! f = None)
   /\ exists m', SFK.index_forms p fs m = OK m')
  \/ (~ (NoDup fs /\ forall f : ustr, f ∈ fs -> m !! f = None)
      /\ SFK.index_forms p fs m = Raise KeyError).
Proof.
  revert m. induction fs as [|f fs IH]; intros m.
  - left. split; [|now exists m]. split; [constructor|].
    intros f Hf. now apply elem_of_nil in Hf.
  - simpl. destruct (m !! f) eqn:Ef.
    + right. split; [|reflexivity]. intros [_ H].
      specialize (H f (list_elem_of_here f fs)). congruence.
    + destruct (IH (<[f:=p]> m)) as [[[Hnd Hfr] Hok] | [Hnot Hr]].
      * left. split; [|exact Hok]. split.
        -- constructor; [|exact Hnd]. intros Hin.
           specialize (Hfr f Hin). rewrite lookup_insert_eq in Hfr.
           discriminate.
        -- intros g Hg. apply elem_of_cons in Hg as [->|Hg]; [exact Ef|].
           specialize (Hfr g Hg).
           destruct (decide (f = g)) as [->|Hne].
           ++ rewrite lookup_insert_eq in Hfr. discriminate.
           ++ now rewrite lookup_insert_ne in Hfr.
      * right. split; [|exact Hr]. intros [Hnd Hfr]. apply Hnot.
        apply NoDup_cons in Hnd as [Hnotin Hnd]. split; [exact Hnd|].
        intros g Hg. rewrite lookup_insert_ne.
        -- apply Hfr. now right.
        -- intros ->. contradiction.
Qed.

Lemma index_forms_lookup_None (p : SFK.Particle) (fs : list ustr)
  (m m' : gmap ustr SFK.Particle) (k : ustr) :
  SFK.index_forms p fs m = OK m' ->
  m' !! k = None <-> m !! k = None /\ k ∉ fs.
Proof.
  intros H. pose proof (index_forms_lookup p fs m m' H k) as Hl. split.
  - intros Hn. split.
    + destruct (m !! k) as [q|] eqn:E; [|reflexivity].
      assert (Hs : m' !! k = Some q) by (apply Hl; now left). congruence.
    + intros Hin.
      assert (Hs : m' !! k = Some p) by (apply Hl; right; auto). congruence.
  - intros [Hn Hout]. clear Hl.
    destruct (m' !! k) as [q|] eqn:E; [|reflexivity].
    apply (index_forms_lookup p fs m m' H k) in E as [E | [Hin _]];
      [congruence | contradiction].
Qed.

Lemma index_particles_cases (ps : list SFK.Particle)
  (m : gmap ustr SFK.Particle) :
  ((NoDup (concat (map SFK.Particle_iter ps))
    /\ forall f : ustr,
         f ∈ concat (map SFK.Particle_iter ps) -> m !! f = None)
   /\ exists m', SFK.index_particles ps m = OK m')
  \/ (~ (NoDup (concat (map SFK.Particle_iter ps))
         /\ forall f : ustr,
              f ∈ concat (map SFK.Particle_iter ps) -> m !! f = None)
      /\ SFK.index_particles ps m = Raise KeyError).
Proof.
  revert m. induction ps as [|p ps IH]; intros m.
  - left. split; [|now exists m]. split; [constructor|].
    intros f Hf. now apply elem_of_nil in Hf.
  - cbn [map concat SFK.index_particles].
    destruct (index_forms_cases p (SFK.Particle_iter p) m)
      as [[[Hnd Hfr] [m1 Hm1]] | [Hnot Hr]].
    + rewrite Hm1. cbn [bind].
      destruct (IH m1) as [[[Hnd' Hfr'] Hok] | [Hnot' Hr']].
      * left. split; [|exact Hok]. split.
        -- apply NoDup_app. split; [exact Hnd|]. split; [|exact Hnd'].
           intros x Hx Hx'. specialize (Hfr' x Hx').
           apply (index_forms_lookup_None _ _ _ _ x Hm1) in Hfr'.
           now destruct Hfr'.
        -- intros f Hf. apply elem_of_app in Hf as [Hf|Hf]; [auto|].
           specialize (Hfr' f Hf).
           apply (index_forms_lookup_None _ _ _ _ f Hm1) in Hfr'.
           now destruct Hfr'.
      * right. split; [|exact Hr']. intros [Hnd' Hfr']. apply Hnot'.
        apply NoDup_app in Hnd' as (_ & Hdis & Hnd'). split; [exact Hnd'|].
        intros g Hg. apply (index_forms_lookup_None _ _ _ _ g Hm1).
        split.
        -- apply Hfr'. apply elem_of_app. now right.
        -- intros Hin. exact (Hdis g Hin Hg).
    + rewrite Hr. right. split; [|reflexivity]. intros [Hnd' Hfr'].
      apply Hnot. apply NoDup_app in Hnd' as (Hnd & _ & _).
      split; [exact Hnd|]. intros f Hf. apply Hfr'.
      apply elem_of_app. now left.
Qed.

End RegistryMore.

(** X11: building the registry from any list of particles succeeds exactly
    when all the strings the particles iterate over, default forms
    included, are pairwise distinct, and raises KeyError otherwise; a
    particle whose own two forms coincide is refused as well. *)
Theorem X11_registry_duplicates (ps : list SFK.Particle) :
  (NoDup (concat (map SFK.Particle_iter ps)) ->
   exists index, SFK.index_particles ps ∅ = OK index) /\
  (~ NoDup (concat (map SFK.Particle_iter ps)) ->
   SFK.index_particles ps ∅ = Raise KeyError).
Proof.
  destruct (index_particles_cases ps ∅) as [[[Hnd _] Hok] | [Hnot Hr]].
  - split; [intros _; exact Hok | intros Hn; contradiction].
  - split; [|intros _; exact Hr].
    intros Hnd. exfalso. apply Hnot. split; [exact Hnd|].
    intros f _. apply lookup_empty.
Qed.

(** X12: whatever the list of particles, once the registry is built a
    string resolves to a particle exactly when the particle is in the list
    and the string is one of the three it iterates over. *)
Theorem X12_registry_lookup (ps : list SFK.Particle)
  (index : gmap ustr SFK.Particle) :
  SFK.index_particles ps ∅ = OK index ->
  forall (k : ustr) (p : SFK.Particle),
    index !! k = Some p <-> p ∈ ps /\ k ∈ SFK.Particle_iter p.
Proof.
  intros H k p. rewrite (index_particles_lookup _ _ _ H k p).
  rewrite lookup_empty.
  split; [intros [Hn|Hp]; [discriminate | exact Hp] | now right].
Qed.

(** The registry of two particles of PARTICLES. *)
Lemma X12_registry_lookup_witness :
  exists index,
    SFK.index_particles [Words.eun_neun; SFK.Euro] ∅ = OK index /\
    forall (k : ustr) (p : SFK.Particle),
      index !! k = Some p
      <-> p ∈ [Words.eun_neun; SFK.Euro] /\ k ∈ SFK.Particle_iter p.
Proof.
  destruct (SFK.index_particles [Words.eun_neun; SFK.Euro] ∅)
    as [index|e] eqn:E.
  - exists index. split; [reflexivity|].
    exact (X12_registry_lookup [Words.eun_neun; SFK.Euro] index E).
  - exfalso.
    assert (Hok : match SFK.index_particles [Words.eun_neun; SFK.Euro] ∅
                  with OK _ => True | Raise _ => False end)
      by (vm_compute; exact I).
    rewrite E in Hok. exact Hok.
Defined.

(** ** More on the copula *)

Section CopulaMore.

Lemma copula_not_empty (c v : Z) (rest : ustr) : copula c v rest <> [].
Proof.
  unfold copula. destruct (starts_with_i v); [discriminate|].
  destruct (is_syllableb c && (coda_index c =? 0)); [discriminate|].
  destruct (negb (is_syllableb c)); discriminate.
Qed.

(** Both spellings of the copula stem in front of a verb leave the same
    normalised verb. *)
Lemma normalize_verb_stem (verb : ustr) :
  SFK.normalize_verb ([SFK.LPAREN; SFK.SYL_I; SFK.RPAREN] ++ verb)
  = SFK.sub_scan SFK.NORMALIZE_PATTERN false O verb
  /\ SFK.normalize_verb (SFK.SYL_I :: verb)
     = SFK.sub_scan SFK.NORMALIZE_PATTERN false O verb.
Proof. split; reflexivity. Qed.

Lemma normalize_verb_no_stem (verb : ustr) :
  head verb <> Some SFK.SYL_I ->
  SFK.normalize_verb verb
  = SFK.sub_scan SFK.NORMALIZE_PATTERN false O verb.
Proof.
  intros H. destruct verb as [|c rest]; [reflexivity|].
  unfold SFK.normalize_verb, SFK.re_sub.
  cbn [SFK.sub_scan SFK.NORMALIZE_PATTERN].
  destruct (Z.eqb_spec c SFK.SYL_I) as [->|_]; [now contradiction H|].
  reflexivity.
Qed.

Lemma rest_normalized_plain (rest : ustr) :
  ~ In SFK.LPAREN rest -> rest_normalized rest = rest.
Proof.
  unfold rest_normalized. induction rest as [|a rest IH]; intros H;
    [reflexivity|].
  cbn [SFK.sub_scan SFK.NORMALIZE_PATTERN andb].
  destruct (Z.eqb_spec a SFK.LPAREN) as [->|_];
    [exfalso; apply H; now left|].
  cbn [andb].
  rewrite IH by (intros Hin; apply H; now right).
  now destruct rest as [|b [|d r]].
Qed.

End CopulaMore.

(** X13: the exceptions of the copula.  [Ida] raises IndexError when the
    word is empty once stripped, and when the word is not but the verb is
    empty once normalised; it raises ValueError when the normalised verb
    starts with a character that is no Hangul syllable; in every other case
    it returns a string, which is never empty. *)
Theorem X13_ida_errors (word verb : ustr) :
  (SFK.re_sub SFK.ENDING_BRACKET_PATTERN word = [] ->
   SFK.Ida word verb = Raise IndexError) /\
  (SFK.re_sub SFK.ENDING_BRACKET_PATTERN word <> [] ->
   (SFK.normalize_verb verb = [] ->
    SFK.Ida word verb = Raise IndexError) /\
   (forall v rest, SFK.normalize_verb verb = v :: rest ->
      (~ is_syllable v -> SFK.Ida word verb = Raise ValueError) /\
      (is_syllable v ->
       exists s, SFK.Ida word verb = OK s /\ s <> []))).
Proof.
  split.
  - intros Hw. unfold SFK.Ida. now rewrite Hw.
  - intros Hne.
    destruct (list_last_cases (SFK.re_sub SFK.ENDING_BRACKET_PATTERN word))
      as [H | (init & c & Hw)]; [contradiction|].
    split.
    + intros Hn. unfold SFK.Ida. now rewrite Hw, Hn, Ida_final.
    + intros v rest Hn. split.
      * intros Hv. unfold SFK.Ida. rewrite Hw, Hn, Ida_final. cbn [bind].
        change (str_getitem (v :: rest) 0) with (OK (A := ustr) [v]).
        cbn [bind].
        now rewrite sfk_split_phonemes_not_syllable by assumption.
      * intros Hv. exists (copula c v rest).
        split; [now apply (Ida_outcome word verb init)|].
        apply copula_not_empty.
Qed.

(** X14: contraction and lengthening undo each other.  Let the syllable
    [v] have the onset ㅇ and the vowel ㅓ or ㅔ, and let the rest of the
    verb hold no opening bracket.  After a word ending in an open syllable
    the verb 이, [v], rest comes back contracted to the syllable 56 code
    points further; after a word ending in a closed syllable the contracted
    verb comes back as 이, [v], rest. *)
Theorem X14_fusion_inverse
  (open_init closed_init rest : ustr) (co cc v : Z) :
  is_syllable co -> coda co = PNone ->
  is_syllable cc -> coda cc <> PNone ->
  is_syllable v -> onset v = SFK.IEUNG ->
  vowel v = chr 0x3153 \/ vowel v = chr 0x3154 ->
  ~ In SFK.LPAREN rest ->
  SFK.Ida (open_init ++ [co]) (SFK.SYL_I :: v :: rest)
  = OK (v + 56 :: rest) /\
  SFK.Ida (closed_init ++ [cc]) (v + 56 :: rest)
  = OK (SFK.SYL_I :: v :: rest).
Proof.
  intros Hco Hko Hcc Hkc Hv Hon Hvo Hrest.
  destruct (syllable_indices v Hv) as (_ & Hvi & Hk & Hsum).
  assert (Ho : onset_index v = 11).
  { pose proof (onset_is_ieung v Hv) as H.
    rewrite Hon, pyval_eqb_refl in H. lia. }
  assert (Hv45 : vowel_index v = 4 \/ vowel_index v = 5).
  { pose proof (vowel_checked v Hv) as H. unfold vowel_check in H.
    cbv zeta in H. fold (vowel v) in H.
    repeat (apply andb_prop in H; destruct H as [H ?]).
    match goal with
    | Hc : eqb (SFK.dict_contains SFK.j_injections _) _ = true |- _ =>
        apply Bool.eqb_prop in Hc;
        assert (Ht : SFK.dict_contains SFK.j_injections (vowel v) = true)
          by (destruct Hvo as [-> | ->]; reflexivity);
        rewrite Ht in Hc
    end.
    lia. }
  rewrite Ho in Hsum.
  assert (Hu : v + 56 = 0xAC00 + ((11 * 21 + (vowel_index v + 2)) * 28
                                  + coda_index v)) by lia.
  destruct (indices_of_offset 11 (vowel_index v + 2) (coda_index v))
    as (Hus & Huo & Huv & _); [lia | lia | exact Hk |].
  rewrite <- Hu in Hus, Huo, Huv.
  apply is_syllableb_true in Hco as Hcob.
  apply is_syllableb_true in Hcc as Hccb.
  apply coda_absent_iff in Hko; [|assumption].
  assert (Hkc' : (coda_index cc =? 0) = false).
  { apply Z.eqb_neq. intros H0. apply Hkc. now apply coda_absent_iff. }
  split.
  - rewrite (Ida_outcome _ _ open_init rest co v);
      [ | now apply strip_syllable_end
        | rewrite normalize_verb_i, rest_normalized_plain;
            [reflexivity | assumption
             | unfold is_syllable, SFK.LPAREN in *; lia]
        | assumption ].
    unfold copula, starts_with_i, fuse. rewrite Hcob, Hko, Ho.
    replace (vowel_index v =? 20) with false by lia.
    replace ((vowel_index v =? 4) || (vowel_index v =? 5)) with true by lia.
    reflexivity.
  - assert (Hne : v + 56 <> SFK.SYL_I).
    { intros Heq. rewrite Heq in Huv.
      change (vowel_index SFK.SYL_I) with 20 in Huv. lia. }
    rewrite (Ida_outcome _ _ closed_init rest cc (v + 56));
      [ | now apply strip_syllable_end
        | rewrite normalize_verb_keep, rest_normalized_plain;
            [reflexivity | assumption | assumption
             | unfold is_syllable, SFK.LPAREN in *; lia]
        | assumption ].
    unfold copula, starts_with_i, fuse. rewrite Hccb, Hkc', Huo, Huv.
    replace (vowel_index v + 2 =? 20) with false by lia.
    replace ((vowel_index v + 2 =? 6) || (vowel_index v + 2 =? 7))
      with true by lia.
    cbn [andb negb]. replace (v + 56 - 56) with v by lia. reflexivity.
Qed.

(** 피카츄 contracts 이어요 to 여요, and 고라파덕 lengthens 여요 to 이어요. *)
Lemma X14_fusion_inverse_witness :
  SFK.Ida ([0xD53C; 0xCE74] ++ [0xCE04]) (SFK.SYL_I :: 0xC5B4 :: [0xC694])
  = OK (0xC5B4 + 56 :: [0xC694]) /\
  SFK.Ida ([0xACE0; 0xB77C; 0xD30C] ++ [0xB355]) (0xC5B4 + 56 :: [0xC694])
  = OK (SFK.SYL_I :: 0xC5B4 :: [0xC694]).
Proof.
  apply (X14_fusion_inverse [0xD53C; 0xCE74] [0xACE0; 0xB77C; 0xD30C]
           [0xC694] 0xCE04 0xB355 0xC5B4).
  - unfold is_syllable. lia.
  - reflexivity.
  - unfold is_syllable. lia.
  - vm_compute. discriminate.
  - unfold is_syllable. lia.
  - reflexivity.
  - left. reflexivity.
  - unfold SFK.LPAREN. simpl. lia.
Defined.

(** X15: the copula stem in front of the verb does not matter.  A verb
    gives the same result with 이 and with (이) in front of it, and also
    with nothing in front of it unless it starts with 이 itself. *)
Theorem X15_copula_stem_insensitive (word verb : ustr) :
  SFK.Ida word ([SFK.LPAREN; SFK.SYL_I; SFK.RPAREN] ++ verb)
  = SFK.Ida word (SFK.SYL_I :: verb) /\
  (head verb <> Some SFK.SYL_I ->
   SFK.Ida word (SFK.SYL_I :: verb) = SFK.Ida word verb).
Proof.
  destruct (normalize_verb_stem verb) as [H1 H2]. split.
  - unfold SFK.Ida. now rewrite H1, H2.
  - intros H. unfold SFK.Ida.
    now rewrite H2, (normalize_verb_no_stem verb H).
Qed.

(** ** More on the extension *)

(** X16: in the explicit form, an option that is one of the three strings
    of a particle of PARTICLES is answered by that particle: the formatted
    word followed by the form the particle selects for the word, or the
    exception the selection raises. *)
Theorem X16_ko_known_form
  (formatter_format : ustr -> ustr -> ustr)
  (value name option format : ustr) (p : SFK.Particle) :
  name <> [] ->
  p ∈ SFK.PARTICLES -> option ∈ SFK.Particle_iter p ->
  SFK.ko formatter_format value name option format
  = (suffix <- SFK.Particle_call p value ;;
     OK (Some (formatter_format format value ++ suffix))).
Proof.
  intros Hname Hp Hopt.
  assert (Hl : SFK._particle_index !! option = Some p).
  { apply (index_particles_lookup _ _ _ particle_index_built). now right. }
  unfold SFK.ko. destruct name as [|n0 name]; [contradiction|].
  cbn [andb]. now rewrite Hl.
Qed.

(** The default form (으)로 selects the directional particle: after 버터플
    the answer is 버터플로. *)
Lemma X16_ko_known_form_witness :
  Words.ko_name <> [] /\
  SFK.Euro ∈ SFK.PARTICLES /\
  SFK.default SFK.Euro ∈ SFK.Particle_iter SFK.Euro /\
  SFK.ko Words.test_format Words.butterfree Words.ko_name
    (SFK.default SFK.Euro) Words.braces
  = (suffix <- SFK.Particle_call SFK.Euro Words.butterfree ;;
     OK (Some (Words.test_format Words.braces Words.butterfree ++ suffix))).
Proof.
  assert (H1 : Words.ko_name <> []) by discriminate.
  assert (H2 : SFK.Euro ∈ SFK.PARTICLES)
    by (unfold SFK.PARTICLES; do 7 apply list_elem_of_further;
        apply list_elem_of_here).
  assert (H3 : SFK.default SFK.Euro ∈ SFK.Particle_iter SFK.Euro)
    by (left).
  split; [exact H1|]. split; [exact H2|]. split; [exact H3|].
  exact (X16_ko_known_form Words.test_format Words.butterfree Words.ko_name
           (SFK.default SFK.Euro) Words.braces SFK.Euro H1 H2 H3).
Defined.

(** X17: the two implicit forms are the explicit form under fixed formats.
    When the particle text starts with a Hangul syllable, the bare implicit
    form answers as the explicit form with the format [{}], and the form
    with a leading hyphen as the explicit form with the empty format; the
    option passed along with an implicit form is ignored. *)
Theorem X17_ko_implicit_forms
  (formatter_format : ustr -> ustr -> ustr)
  (value name ignored t : ustr) (h : Z) :
  name <> [] -> is_syllable h ->
  SFK.ko formatter_format value [] ignored (h :: t)
  = SFK.ko formatter_format value name (h :: t) [0x7B; 0x7D] /\
  SFK.ko formatter_format value [] ignored (SFK.HYPHEN :: h :: t)
  = SFK.ko formatter_format value name (h :: t) [].
Proof.
  intros Hname Hh. destruct name as [|n0 name]; [contradiction|].
  assert (Hhy : (h =? SFK.HYPHEN) = false)
    by (unfold is_syllable, SFK.HYPHEN in *; lia).
  apply is_syllableb_true in Hh.
  unfold SFK.ko, SFK.startswith. cbn [SFK.partition snd andb].
  rewrite Hhy, Z.eqb_refl. cbn [snd].
  now rewrite sfk_is_hangul_single, Hh.
Qed.

(** 피카츄 with the implicit 아, and with the implicit -아. *)
Lemma X17_ko_implicit_forms_witness :
  Words.ko_name <> [] /\ is_syllable 0xC544 /\
  SFK.ko Words.test_format Words.pikachu [] [] (0xC544 :: [])
  = SFK.ko Words.test_format Words.pikachu Words.ko_name (0xC544 :: [])
      [0x7B; 0x7D] /\
  SFK.ko Words.test_format Words.pikachu [] [] (SFK.HYPHEN :: 0xC544 :: [])
  = SFK.ko Words.test_format Words.pikachu Words.ko_name (0xC544 :: []) [].
Proof.
  assert (H1 : Words.ko_name <> []) by discriminate.
  assert (H2 : is_syllable 0xC544) by (unfold is_syllable; lia).
  split; [exact H1|]. split; [exact H2|].
  exact (X17_ko_implicit_forms Words.test_format Words.pikachu Words.ko_name
           [] [] 0xC544 H1 H2).
Defined.

(** X18: the implicit forms decline, with [None] and without an exception,
    every particle text that is empty or starts with a character that is no
    Hangul syllable, whatever the word is, the empty word included. *)
Theorem X18_ko_implicit_declines
  (formatter_format : ustr -> ustr -> ustr)
  (value ignored text : ustr) :
  (forall h, head text = Some h -> ~ is_syllable h) ->
  SFK.ko formatter_format value [] ignored (SFK.HYPHEN :: text) = OK None /\
  (head text <> Some SFK.HYPHEN ->
   SFK.ko formatter_format value [] ignored text = OK None).
Proof.
  intros Hh. unfold SFK.ko, SFK.startswith.
  cbn [SFK.partition snd andb]. rewrite Z.eqb_refl. cbn [snd].
  destruct text as [|h t]; [split; reflexivity|].
  assert (Hb : is_syllableb h = false)
    by (apply is_syllableb_false, Hh; reflexivity).
  rewrite sfk_is_hangul_single, Hb. split; [reflexivity|].
  intros Hne. destruct (Z.eqb_spec h SFK.HYPHEN) as [->|_];
    [now contradiction Hne|].
  now rewrite sfk_is_hangul_single, Hb.
Qed.

(** The Latin text abc is declined in both implicit forms, even for the
    empty word. *)
Lemma X18_ko_implicit_declines_witness :
  (forall h, head [0x61; 0x62; 0x63] = Some h -> ~ is_syllable h) /\
  SFK.ko Words.test_format [] [] [] (SFK.HYPHEN :: [0x61; 0x62; 0x63])
  = OK None /\
  (head [0x61; 0x62; 0x63] <> Some SFK.HYPHEN ->
   SFK.ko Words.test_format [] [] [] [0x61; 0x62; 0x63] = OK None).
Proof.
  assert (H : forall h, head [0x61; 0x62; 0x63] = Some h -> ~ is_syllable h)
    by (intros h Hh; injection Hh as <-; unfold is_syllable; lia).
  split; [exact H|].
  exact (X18_ko_implicit_declines Words.test_format [] [] [0x61; 0x62; 0x63]
           H).
Defined.

(** ** More on bracket stripping *)

Section StrippingMore.

Lemma at_dollar_true (s : ustr) :
  SFK.at_dollar s = true -> s = [] \/ s = [SFK.LF].
Proof.
  destruct s as [|c [|d s]]; simpl; intros H; [now left | | discriminate].
  right. f_equal. lia.
Qed.

Lemma at_dollar_before_close (s tail : ustr) :
  SFK.at_dollar (s ++ SFK.RPAREN :: tail) = false.
Proof.
  destruct s as [|a [|b s]]; simpl.
  - destruct tail; reflexivity.
  - reflexivity.
  - now destruct (s ++ SFK.RPAREN :: tail).
Qed.

(** What a match of the tail of the pattern has read. *)
Lemma match_lazy_close_shape (s : ustr) (n : nat) :
  SFK.match_lazy_close s = Some n ->
  exists grp tail,
    s = grp ++ [SFK.RPAREN] ++ tail /\ n = S (length grp)
    /\ ~ In SFK.LF grp /\ (tail = [] \/ tail = [SFK.LF]).
Proof.
  revert n. induction s as [|c s IH]; intros n H; [discriminate|].
  simpl in H.
  destruct ((c =? SFK.RPAREN) && SFK.at_dollar s) eqn:E.
  - apply andb_prop in E as [Ec Ed]. injection H as <-.
    exists [], s. split; [simpl; f_equal; lia|]. split; [reflexivity|].
    split; [intros []|]. now apply at_dollar_true.
  - destruct (Z.eqb_spec c SFK.LF) as [->|Hc]; [discriminate|].
    destruct (SFK.match_lazy_close s) as [m|] eqn:Em; [|discriminate].
    injection H as <-.
    destruct (IH m eq_refl) as (grp & tail & -> & -> & Hg & Ht).
    exists (c :: grp), tail. split; [reflexivity|]. split; [reflexivity|].
    split; [|exact Ht]. intros [Heq|Hin]; [congruence | contradiction].
Qed.

(** The tail of the pattern matches whenever no line feed stands before the
    closing bracket that ends the word. *)
Lemma match_lazy_close_reaches (s tail : ustr) :
  ~ In SFK.LF s -> tail = [] \/ tail = [SFK.LF] ->
  SFK.match_lazy_close (s ++ SFK.RPAREN :: tail) = Some (S (length s)).
Proof.
  intros Hs Ht. induction s as [|a s IH].
  - simpl. destruct Ht as [-> | ->]; reflexivity.
  - cbn [app SFK.match_lazy_close]. rewrite at_dollar_before_close.
    rewrite andb_false_r.
    destruct (Z.eqb_spec a SFK.LF) as [->|_]; [exfalso; apply Hs; now left|].
    rewrite IH by (intros Hin; apply Hs; now right). reflexivity.
Qed.

Lemma sub_scan_skip (pattern : bool -> ustr -> option nat) (b : bool)
  (a t : ustr) :
  a <> [] ->
  SFK.sub_scan pattern b (length a) (a ++ t) = SFK.sub_scan pattern false O t.
Proof.
  revert b. induction a as [|x a IH]; intros b Ha; [contradiction|].
  cbn [length app SFK.sub_scan].
  destruct a as [|y a]; [reflexivity|]. now apply IH.
Qed.

Lemma strip_tail (tail : ustr) (b : bool) :
  tail = [] \/ tail = [SFK.LF] ->
  SFK.sub_scan SFK.ENDING_BRACKET_PATTERN b O tail = tail.
Proof. intros [-> | ->]; reflexivity. Qed.

(** The scan either finds no opening bracket from which the pattern
    matches, or drops the group of the leftmost one. *)
Lemma strip_cases (w : ustr) (b : bool) :
  (SFK.sub_scan SFK.ENDING_BRACKET_PATTERN b O w = w
   /\ forall p1 p2, w = p1 ++ [SFK.LPAREN] ++ p2 ->
                    SFK.match_lazy_close p2 = None)
  \/ exists pre grp tail,
       w = pre ++ [SFK.LPAREN] ++ grp ++ [SFK.RPAREN] ++ tail
       /\ ~ In SFK.LF grp /\ (tail = [] \/ tail = [SFK.LF])
       /\ SFK.sub_scan SFK.ENDING_BRACKET_PATTERN b O w = pre ++ tail
       /\ forall p1 p2, pre = p1 ++ [SFK.LPAREN] ++ p2 -> In SFK.LF p2.
Proof.
  revert b. induction w as [|c w IH]; intros b.
  - left. split; [reflexivity|]. intros p1 p2 H. now destruct p1.
  - cbn [SFK.sub_scan SFK.ENDING_BRACKET_PATTERN].
    destruct (Z.eqb_spec c SFK.LPAREN) as [->|Hc].
    + destruct (SFK.match_lazy_close w) as [n|] eqn:Em.
      * right.
        destruct (match_lazy_close_shape w n Em)
          as (grp & tail & -> & -> & Hg & Ht).
        exists [], grp, tail. split; [reflexivity|]. split; [exact Hg|].
        split; [exact Ht|]. split.
        -- cbn [option_map].
           replace (S (length grp)) with (length (grp ++ [SFK.RPAREN]))
             by (rewrite length_app; simpl; lia).
           rewrite (app_assoc grp [SFK.RPAREN] tail).
           rewrite sub_scan_skip by (now destruct grp).
           now apply strip_tail.
        -- intros p1 p2 H. now destruct p1.
      * cbn [option_map].
        destruct (IH false) as [[Hw Hno] | (pre & grp & tail & Hw & Hg & Ht
                                            & Hs & Hleft)].
        -- left. split; [now rewrite Hw|].
           intros p1 p2 H. destruct p1 as [|x p1].
           ++ injection H as <-. exact Em.
           ++ injection H as _ H. now apply (Hno p1 p2).
        -- right. exists (SFK.LPAREN :: pre), grp, tail.
           split; [now rewrite Hw|]. split; [exact Hg|].
           split; [exact Ht|]. split; [now rewrite Hs|].
           intros p1 p2 H. destruct p1 as [|x p1].
           ++ injection H as <-.
              destruct (in_dec Z.eq_dec SFK.LF pre) as [Hin|Hout];
                [exact Hin|]. exfalso.
              assert (Hno : ~ In SFK.LF (pre ++ [SFK.LPAREN] ++ grp)).
              { intros Hin. apply in_app_or in Hin as [Hin|Hin];
                  [contradiction|].
                destruct Hin as [Heq|Hin]; [discriminate | contradiction]. }
              pose proof (match_lazy_close_reaches _ tail Hno Ht) as Hm.
              replace ((pre ++ [SFK.LPAREN] ++ grp) ++ SFK.RPAREN :: tail)
                with w in Hm by (rewrite Hw, <- !app_assoc; reflexivity).
              congruence.
           ++ injection H as _ H. now apply (Hleft p1 p2).
    + destruct (IH false) as [[Hw Hno] | (pre & grp & tail & Hw & Hg & Ht
                                          & Hs & Hleft)].
      * left. split; [now rewrite Hw|].
        intros p1 p2 H. destruct p1 as [|x p1].
        -- injection H as H _. contradiction.
        -- injection H as _ H. now apply (Hno p1 p2).
      * right. exists (c :: pre), grp, tail.
        split; [now rewrite Hw|]. split; [exact Hg|].
        split; [exact Ht|]. split; [now rewrite Hs|].
        intros p1 p2 H. destruct p1 as [|x p1].
        -- injection H as H _. contradiction.
        -- injection H as _ H. now apply (Hleft p1 p2).
Qed.

End StrippingMore.

(** X19: the substitution with ENDING_BRACKET_PATTERN removes at most one
    piece of the word.  A word is changed exactly when it ends, up to one
    final line feed, in a bracket group without line feed; the piece removed
    then runs from the leftmost opening bracket that reaches the end of the
    word without crossing a line feed, so that every opening bracket left in
    the result is followed there by a line feed. *)
Theorem X19_strip_leftmost_group (w : ustr) :
  (SFK.re_sub SFK.ENDING_BRACKET_PATTERN w = w
   /\ ~ exists pre grp tail,
         w = pre ++ [SFK.LPAREN] ++ grp ++ [SFK.RPAREN] ++ tail
         /\ ~ In SFK.LF grp /\ (tail = [] \/ tail = [SFK.LF]))
  \/ exists pre grp tail,
       w = pre ++ [SFK.LPAREN] ++ grp ++ [SFK.RPAREN] ++ tail
       /\ ~ In SFK.LF grp /\ (tail = [] \/ tail = [SFK.LF])
       /\ SFK.re_sub SFK.ENDING_BRACKET_PATTERN w = pre ++ tail
       /\ forall p1 p2, pre = p1 ++ [SFK.LPAREN] ++ p2 -> In SFK.LF p2.
Proof.
  unfold SFK.re_sub.
  destruct (strip_cases w true) as [[Hw Hno] | H]; [left | now right].
  split; [exact Hw|]. intros (pre & grp & tail & -> & Hg & Ht).
  specialize (Hno pre (grp ++ [SFK.RPAREN] ++ tail) eq_refl).
  change (grp ++ [SFK.RPAREN] ++ tail) with (grp ++ SFK.RPAREN :: tail)
    in Hno.
  rewrite (match_lazy_close_reaches grp tail Hg Ht) in Hno. discriminate.
Qed.

(** ** The two copies of [join_phonemes] *)

Section JoinCopies.

Lemma absent_as_empty_eqb (y c : pyval) :
  y <> PStr [] -> c <> PStr [] ->
  pyval_eqb (absent_as_empty y) (absent_as_empty c) = pyval_eqb y c.
Proof.
  intros Hy Hc. destruct y as [|s], c as [|t]; simpl; try reflexivity.
  - destruct (ustr_eqb [] t) eqn:E; [|reflexivity].
    apply ustr_eqb_eq in E. congruence.
  - destruct (ustr_eqb s []) eqn:E; [|reflexivity].
    apply ustr_eqb_eq in E. congruence.
Qed.

Lemma index_from_absent_as_empty (l : list pyval) (c : pyval) (k : Z) :
  Forall (fun y => y <> PStr []) l -> c <> PStr [] ->
  index_from (absent_as_empty c) (map absent_as_empty l) k
  = index_from c l k.
Proof.
  intros Hl Hc. revert k. induction Hl as [|y l Hy Hl IH]; intros k;
    [reflexivity|].
  cbn [map index_from]. rewrite absent_as_empty_eqb by assumption.
  now rewrite IH.
Qed.

End JoinCopies.

(** X20: the two copies of [join_phonemes] agree, exceptions included, once
    the absent coda is written [None] for smartformatkorean.py and as the
    empty string for hangul.py.  The empty string itself is the one value
    on which they differ: hangul.py takes it for the absent coda,
    smartformatkorean.py raises ValueError for it. *)
Theorem X20_join_copies_agree (onset nucleus coda : pyval) :
  coda <> PStr [] ->
  Hangul.join_phonemes (Positional [onset; nucleus; absent_as_empty coda])
  = SFK.join_phonemes (Positional [onset; nucleus; coda])
  /\ Hangul.join_phonemes (Positional [onset; nucleus])
     = SFK.join_phonemes (Positional [onset; nucleus]).
Proof.
  intros Hc.
  assert (Hall : Forall (fun f => f <> PStr []) SFK.FINALS)
    by (apply (bool_decide_unpack _); vm_compute; reflexivity).
  assert (Hu2 : unpack_args (Positional [onset; nucleus])
                = OK [onset; nucleus]) by now destruct onset.
  assert (Hidx : forall c, c <> PStr [] ->
                 list_index Hangul.CODAS (absent_as_empty c)
                 = list_index SFK.FINALS c).
  { intros c Hne. unfold list_index.
    change Hangul.CODAS with (map absent_as_empty SFK.FINALS).
    now apply index_from_absent_as_empty. }
  split.
  - rewrite (hangul_join_unfold _ onset nucleus (absent_as_empty coda))
      by (left; apply unpack_args_three).
    rewrite (sfk_join_unfold _ onset nucleus coda)
      by (left; apply unpack_args_three).
    now rewrite (Hidx coda Hc).
  - rewrite (hangul_join_unfold _ onset nucleus (PStr [])) by (right; auto).
    rewrite (sfk_join_unfold _ onset nucleus PNone) by (right; auto).
    now rewrite <- (Hidx PNone) by discriminate.
Qed.

(** ㄱ, ㅗ and ㅁ make 곰 in both copies. *)
Lemma X20_join_copies_agree_witness :
  chr 0x3141 <> PStr [] /\
  Hangul.join_phonemes
    (Positional [chr 0x3131; chr 0x3157; absent_as_empty (chr 0x3141)])
  = SFK.join_phonemes (Positional [chr 0x3131; chr 0x3157; chr 0x3141])
  /\ Hangul.join_phonemes (Positional [chr 0x3131; chr 0x3157])
     = SFK.join_phonemes (Positional [chr 0x3131; chr 0x3157]).
Proof.
  assert (H : chr 0x3141 <> PStr []) by discriminate.
  split; [exact H|].
  exact (X20_join_copies_agree (chr 0x3131) (chr 0x3157) (chr 0x3141) H).
Defined.

(** ** The exceptions of the extension *)

Section KoErrors.

Lemma Ida_result_cases (word verb : ustr) :
  (exists s, SFK.Ida word verb = OK s)
  \/ SFK.Ida word verb = Raise IndexError
  \/ SFK.Ida word verb = Raise ValueError.
Proof.
  destruct (list_last_cases (SFK.re_sub SFK.ENDING_BRACKET_PATTERN word))
    as [Hw | (init & c & Hw)].
  - right. left. unfold SFK.Ida. now rewrite Hw.
  - destruct (SFK.normalize_verb verb) as [|v rest] eqn:Hn.
    + right. left. unfold SFK.Ida. now rewrite Hw, Hn, Ida_final.
    + destruct (is_syllableb v) eqn:Ev.
      * left. apply is_syllableb_true in Ev.
        rewrite (Ida_outcome word verb init rest c v) by assumption. eauto.
      * right. right. apply is_syllableb_false in Ev.
        unfold SFK.Ida. rewrite Hw, Hn, Ida_final. cbn [bind].
        change (str_getitem (v :: rest) 0) with (OK (A := ustr) [v]).
        cbn [bind].
        now rewrite sfk_split_phonemes_not_syllable by assumption.
Qed.

Lemma Particle_call_result_cases (p : SFK.Particle) (word : ustr) :
  (exists s, SFK.Particle_call p word = OK s)
  \/ SFK.Particle_call p word = Raise IndexError.
Proof.
  destruct (list_last_cases (SFK.re_sub SFK.ENDING_BRACKET_PATTERN word))
    as [Hw | (init & c & Hw)].
  - right. now apply Particle_call_empty.
  - left. rewrite (Particle_call_stripped p word init c Hw). eauto.
Qed.

End KoErrors.

(** A host that always returns is the extension as modelled with a total
    formatter. *)
Lemma ko_host_returning (formatter_format : ustr -> ustr -> ustr)
  (value name option format : ustr) :
  SFK.ko_host (fun f v => OK (formatter_format f v)) value name option format
  = SFK.ko formatter_format value name option format.
Proof.
  unfold SFK.ko_host, SFK.ko.
  now destruct (match name with [] => true | _ => false end
                && match (if match name with [] => true | _ => false end
                          then if SFK.startswith format SFK.HYPHEN
                               then snd (SFK.partition format SFK.HYPHEN)
                               else format
                          else option) with
                   | [] => true
                   | c :: _ => negb (SFK.is_hangul [c])
                   end).
Qed.

(** X21: what the extension adds to the exceptions of its host.  Whenever
    [ko] raises, either the host's [formatter.format] raised that exception
    on the word, or the exception is IndexError or ValueError: the KeyError
    of an option that is no registry key is handled and no TypeError
    arises.  In the explicit form with an option that is a registry key,
    the exception is the formatter's on the given format, or IndexError. *)
Theorem X21_ko_exceptions
  (formatter_format : ustr -> ustr -> result ustr)
  (value name option format : ustr) (e : exn) :
  SFK.ko_host formatter_format value name option format = Raise e ->
  ((exists format', formatter_format format' value = Raise e)
   \/ e = IndexError \/ e = ValueError) /\
  (name <> [] -> is_Some (SFK._particle_index !! option) ->
   formatter_format format value = Raise e \/ e = IndexError).
Proof.
  unfold SFK.ko_host.
  set (option' := if match name with [] => true | _ => false end
                  then if SFK.startswith format SFK.HYPHEN
                       then snd (SFK.partition format SFK.HYPHEN)
                       else format
                  else option).
  set (format' := if match name with [] => true | _ => false end
                  then if SFK.startswith format SFK.HYPHEN
                       then [] else [0x7B; 0x7D]
                  else format).
  intros H.
  assert (Hopt : name <> [] -> option' = option /\ format' = format).
  { intros Hn. subst option' format'. now destruct name. }
  destruct (match name with [] => true | _ => false end
            && match option' with
               | [] => true
               | c :: _ => negb (SFK.is_hangul [c])
               end); [discriminate|].
  destruct (formatter_format format' value) as [formatted|e'] eqn:Ef;
    cbn [bind] in H.
  - destruct (SFK._particle_index !! option') as [p|] eqn:El.
    + destruct (Particle_call_result_cases p value) as [[s Hs] | Hr];
        rewrite ?Hs, ?Hr in H; cbn [bind] in H; [discriminate|].
      injection H as <-. auto.
    + destruct (Ida_result_cases value option') as [[s Hs] | [Hr | Hr]];
        rewrite ?Hs, ?Hr in H; cbn [bind] in H; [discriminate | | ];
        injection H as <-.
      * auto.
      * split; [auto|]. intros Hn [q Hq].
        destruct (Hopt Hn) as [Ho _]. rewrite Ho in El. congruence.
  - injection H as <-. split; [left; eauto|].
    intros Hn _. destruct (Hopt Hn) as [_ Hf]. rewrite Hf in Ef. now left.
Qed.

(** With a formatter that refuses every format with KeyError, the explicit
    spec 으로 on 피카츄 lets that KeyError out. *)
Lemma X21_ko_exceptions_witness :
  SFK.ko_host (fun _ _ => Raise KeyError) Words.pikachu Words.ko_name
    [0xC73C; 0xB85C] Words.braces
  = Raise KeyError /\
  ((exists format', (fun _ _ : ustr => @Raise ustr KeyError) format'
                      Words.pikachu = Raise KeyError)
   \/ KeyError = IndexError \/ KeyError = ValueError) /\
  (Words.ko_name <> [] ->
   is_Some (SFK._particle_index !! ([0xC73C; 0xB85C] : ustr)) ->
   (fun _ _ : ustr => @Raise ustr KeyError) Words.braces Words.pikachu
   = Raise KeyError
   \/ KeyError = IndexError).
Proof.
  assert (H : SFK.ko_host (fun _ _ => Raise KeyError) Words.pikachu
                Words.ko_name [0xC73C; 0xB85C] Words.braces
              = Raise KeyError)
    by (vm_compute; reflexivity).
  split; [exact H|].
  exact (X21_ko_exceptions (fun _ _ => Raise KeyError) Words.pikachu
           Words.ko_name [0xC73C; 0xB85C] Words.braces KeyError H).
Defined.
